(** * Tourism agent: query interpretation pipeline

    A shallow embedding of [agents/tourism_agent.py], [agents/places_agent.py]
    and [agents/weather_agent.py], and of the query route of [app.py].

    Conventions.
    - A Python [str] is the [string] of its UTF-8 bytes.  [len] counts the
      characters ([py_len]: the bytes that do not continue a character);
      positions that only serve to cut a text are byte positions, which cut
      the same text.  Case and white space are those of ASCII: the bytes of
      the other characters are carried along unchanged, they are neither
      letters nor white space, and [lower] leaves them alone.
    - A number of a JSON answer is the rational [Q] that its notation
      denotes, where the code holds an integer or the nearest double.  The
      comparisons with a threshold and Python's [round] (round-half-to-even)
      come out the same, unless the number misses the threshold or a
      half-integer by less than the spacing of the doubles.  The score of a
      geocoding candidate is the exact sum, where the code adds doubles: for
      importances between 0 and 1 the two differ by less than 10^-13, which
      can decide a tie.  A float that is infinite, or a NaN, is a value of
      its own.
    - A call that may raise returns a [result]; the HTTP round trip of each
      provider is an oracle in the record [World], and so are the clock and
      the draw of [random.choice].  Provider data has the JSON types of a
      Nominatim, Open-Meteo or Overpass answer; a key may be missing.
    - [PlacesAgent.get_place_details], the place-detail provider, makes
      requests of its own (a name search on Nominatim, then a name query on
      Overpass) and catches every exception: its outcome is an oracle as a
      whole. *)

From Stdlib Require Import Bool Arith List Ascii String ZArith QArith Qround Lia.
From Stdlib Require Import DecimalString Lqa.
Import ListNotations.

Local Close Scope Q_scope.
Local Open Scope nat_scope.
Local Open Scope list_scope.
Local Open Scope string_scope.

(** ** Python string primitives *)

Module PyStr.

Definition is_upper (c : ascii) : bool :=
  let n := nat_of_ascii c in (65 <=? n)%nat && (n <=? 90)%nat.

Definition is_lower (c : ascii) : bool :=
  let n := nat_of_ascii c in (97 <=? n)%nat && (n <=? 122)%nat.

Definition is_alpha (c : ascii) : bool := is_upper c || is_lower c.

Definition is_digit (c : ascii) : bool :=
  let n := nat_of_ascii c in (48 <=? n)%nat && (n <=? 57)%nat.

(** [str.isspace] on one character: TAB, LF, VT, FF, CR, FS, GS, RS, US and
    the space. *)
Definition is_space (c : ascii) : bool :=
  let n := nat_of_ascii c in
  ((9 <=? n)%nat && (n <=? 13)%nat) || ((28 <=? n)%nat && (n <=? 32)%nat).

(** [\w] of the [re] module, on ASCII. *)
Definition is_word (c : ascii) : bool :=
  is_alpha c || is_digit c || Ascii.eqb c "_"%char.

Definition lower_char (c : ascii) : ascii :=
  if is_upper c then ascii_of_nat (nat_of_ascii c + 32) else c.

Definition upper_char (c : ascii) : ascii :=
  if is_lower c then ascii_of_nat (nat_of_ascii c - 32) else c.

Definition non_ascii (c : ascii) : bool := (127 <? nat_of_ascii c)%nat.

(** A byte 10xxxxxx continues the character the bytes before it began. *)
Definition is_continuation (c : ascii) : bool :=
  let n := nat_of_ascii c in (128 <=? n)%nat && (n <=? 191)%nat.

Fixpoint smap (f : ascii -> ascii) (s : string) : string :=
  match s with
  | EmptyString => EmptyString
  | String c t => String (f c) (smap f t)
  end.

Fixpoint sall (p : ascii -> bool) (s : string) : bool :=
  match s with
  | EmptyString => true
  | String c t => p c && sall p t
  end.

Fixpoint sany (p : ascii -> bool) (s : string) : bool :=
  match s with
  | EmptyString => false
  | String c t => p c || sany p t
  end.

Fixpoint srev_onto (s acc : string) : string :=
  match s with
  | EmptyString => acc
  | String c t => srev_onto t (String c acc)
  end.

Definition srev (s : string) : string := srev_onto s EmptyString.

(** [len(s)]: the number of characters. *)
Fixpoint py_len (s : string) : nat :=
  match s with
  | EmptyString => 0
  | String c t => (if is_continuation c then 0 else 1) + py_len t
  end.

(** [s.lower()] *)
Definition lower (s : string) : string := smap lower_char s.

(** [s.lstrip()], [s.rstrip()], [s.strip()] *)
Fixpoint lstrip (s : string) : string :=
  match s with
  | EmptyString => EmptyString
  | String c t => if is_space c then lstrip t else s
  end.

Fixpoint rstrip (s : string) : string :=
  match s with
  | EmptyString => EmptyString
  | String c t =>
      match rstrip t with
      | EmptyString => if is_space c then EmptyString else String c EmptyString
      | r => String c r
      end
  end.

Definition strip (s : string) : string := rstrip (lstrip s).

(** [s.startswith(p)], [s.endswith(p)] *)
Fixpoint startswith (p s : string) : bool :=
  match p, s with
  | EmptyString, _ => true
  | String a p', String b s' => Ascii.eqb a b && startswith p' s'
  | String _ _, EmptyString => false
  end.

Definition endswith (p s : string) : bool := startswith (srev p) (srev s).

(** [sub in s] *)
Fixpoint contains (sub s : string) : bool :=
  startswith sub s ||
  match s with
  | EmptyString => false
  | String _ t => contains sub t
  end.

(** [s.find(sub)]: [None] stands for -1. *)
Fixpoint find (sub s : string) : option nat :=
  if startswith sub s then Some 0
  else match s with
       | EmptyString => None
       | String _ t => option_map S (find sub t)
       end.

Fixpoint drop (n : nat) (s : string) : string :=
  match n, s with
  | O, _ => s
  | S n', String _ t => drop n' t
  | S _, EmptyString => EmptyString
  end.

Fixpoint take (n : nat) (s : string) : string :=
  match n, s with
  | S n', String c t => String c (take n' t)
  | _, _ => EmptyString
  end.

(** [s[a:b]] for non-negative [a] and [b] *)
Definition slice (a b : nat) (s : string) : string := take (b - a) (drop a s).

(** [s.find(sub, start)] *)
Definition find_from (sub s : string) (start : nat) : option nat :=
  if (String.length s <? start)%nat then None
  else option_map (fun i => start + i) (find sub (drop start s)).

(** [s.split()]: the maximal runs of characters that are not white space. *)
Fixpoint split_ws_aux (s : string) (cur : string) : list string :=
  match s with
  | EmptyString => match cur with EmptyString => [] | _ => [srev cur] end
  | String c t =>
      if is_space c
      then match cur with
           | EmptyString => split_ws_aux t EmptyString
           | _ => srev cur :: split_ws_aux t EmptyString
           end
      else split_ws_aux t (String c cur)
  end.

Definition split_ws (s : string) : list string := split_ws_aux s EmptyString.

(** [s.split(sep)] for a non-empty [sep]; [fuel] bounds the scan and the
    length of [s] is always enough. *)
Fixpoint split_aux (fuel : nat) (sep s cur : string) : list string :=
  match fuel with
  | O => [srev cur ++ s]
  | S fuel' =>
      match s with
      | EmptyString => [srev cur]
      | String c t =>
          if startswith sep s
          then srev cur :: split_aux fuel' sep (drop (String.length sep) s) EmptyString
          else split_aux fuel' sep t (String c cur)
      end
  end.

Definition split (sep s : string) : list string :=
  split_aux (S (String.length s)) sep s EmptyString.

(** [s.split(sep, 1)] when [sep] occurs in [s]: what precedes the first
    occurrence and what follows it. *)
Definition split_once (sep s : string) : option (string * string) :=
  match find sep s with
  | None => None
  | Some i => Some (take i s, drop (i + String.length sep) s)
  end.

(** [sep.join(l)] *)
Fixpoint join (sep : string) (l : list string) : string :=
  match l with
  | [] => EmptyString
  | [x] => x
  | x :: t => x ++ sep ++ join sep t
  end.

(** [s.title()] *)
Fixpoint title_aux (prev_cased : bool) (s : string) : string :=
  match s with
  | EmptyString => EmptyString
  | String c t =>
      if is_alpha c
      then String (if prev_cased then lower_char c else upper_char c) (title_aux true t)
      else String c (title_aux false t)
  end.

Definition title (s : string) : string := title_aux false s.

(** [s.isalpha()] *)
Definition isalpha (s : string) : bool :=
  match s with
  | EmptyString => false
  | _ => sall is_alpha s
  end.

(** [s[0]] when [s] is not empty *)
Definition head (s : string) : option ascii :=
  match s with
  | EmptyString => None
  | String c _ => Some c
  end.

Definition head_is (p : ascii -> bool) (s : string) : bool :=
  match s with
  | EmptyString => false
  | String c _ => p c
  end.

(** [x in l] for a list of strings *)
Definition mem (x : string) (l : list string) : bool :=
  existsb (String.eqb x) l.

(** [any(k in s for k in keys)] *)
Definition any_in (keys : list string) (s : string) : bool :=
  existsb (fun k => contains k s) keys.

(** Truth value of a string: non-empty. *)
Definition truthy (s : string) : bool :=
  match s with EmptyString => false | _ => true end.

End PyStr.

Import PyStr.


(** ** The fragment of Python's [re] module the agents use

    Backtracking matching with Python's priorities: alternatives left to
    right, greedy repetition longest first, lazy repetition shortest first,
    [search] at the leftmost position that matches.  Repetition is only ever
    applied to a character class in the source patterns. *)

Module Re.

Inductive re : Type :=
| Lit (s : string)                                  (* literal text *)
| Cls (p : ascii -> bool)                           (* one character of a class *)
| Rep (lazy : bool) (min : nat) (p : ascii -> bool) (* p*  p+  p*?  p+? *)
| Opt (r : re)                                      (* (?:r)? *)
| Seq (r1 r2 : re)
| Alt (r1 r2 : re)
| Grp (r : re)                                      (* the capture group *)
| Bos                                               (* ^ *)
| Eos                                               (* $ *)
| Wordb.                                            (* \b *)

Record mstate : Type := MState {
  pos : nat;                 (* index of the next character *)
  prev : option ascii;       (* the character before it *)
  rest : string;             (* the text from [pos] on *)
  grp : option (nat * nat)   (* span of the capture group *)
}.

Definition char_eq (ic : bool) (a b : ascii) : bool :=
  if ic then Ascii.eqb (lower_char a) (lower_char b) else Ascii.eqb a b.

Fixpoint lit_match (ic : bool) (s : string) (st : mstate) : option mstate :=
  match s with
  | EmptyString => Some st
  | String a s' =>
      match rest st with
      | String b t =>
          if char_eq ic a b
          then lit_match ic s' (MState (S (pos st)) (Some b) t (grp st))
          else None
      | EmptyString => None
      end
  end.

Definition or_else {A} (x : option A) (y : option A) : option A :=
  match x with Some a => Some a | None => y end.

Fixpoint rep_exec {A} (lazy : bool) (min : nat) (p : ascii -> bool)
    (k : mstate -> option A) (g : option (nat * nat))
    (count i : nat) (pv : option ascii) (s : string) : option A :=
  let here := if (min <=? count)%nat then k (MState i pv s g) else None in
  match s with
  | String c t =>
      if p c
      then if lazy
           then or_else here (rep_exec lazy min p k g (S count) (S i) (Some c) t)
           else or_else (rep_exec lazy min p k g (S count) (S i) (Some c) t) here
      else here
  | EmptyString => here
  end.

Definition at_boundary (st : mstate) : bool :=
  let before := match prev st with Some c => is_word c | None => false end in
  let after := match rest st with String c _ => is_word c | EmptyString => false end in
  xorb before after.

(** [$] without MULTILINE: the end of the text, or just before a final line
    feed. *)
Definition at_end (st : mstate) : bool :=
  match rest st with
  | EmptyString => true
  | String c EmptyString => Ascii.eqb c (ascii_of_nat 10)
  | _ => false
  end.

Fixpoint exec {A} (ic : bool) (r : re) (st : mstate)
    (k : mstate -> option A) : option A :=
  match r with
  | Lit s => match lit_match ic s st with Some st' => k st' | None => None end
  | Cls p =>
      match rest st with
      | String c t => if p c then k (MState (S (pos st)) (Some c) t (grp st)) else None
      | EmptyString => None
      end
  | Rep lazy min p => rep_exec lazy min p k (grp st) 0 (pos st) (prev st) (rest st)
  | Opt r1 => or_else (exec ic r1 st k) (k st)
  | Seq r1 r2 => exec ic r1 st (fun st' => exec ic r2 st' k)
  | Alt r1 r2 => or_else (exec ic r1 st k) (exec ic r2 st k)
  | Grp r1 =>
      exec ic r1 st
        (fun st' => k (MState (pos st') (prev st') (rest st') (Some (pos st, pos st'))))
  | Bos => if (pos st =? 0)%nat then k st else None
  | Eos => if at_end st then k st else None
  | Wordb => if at_boundary st then k st else None
  end.

(** A match object: [m.start()], [m.end()] and [m.group(1)]. *)
Record rmatch : Type := RMatch {
  m_start : nat;
  m_end : nat;
  group1 : string
}.

Definition match_at (ic : bool) (r : re) (whole : string) (st : mstate)
  : option rmatch :=
  exec ic r st
    (fun st' =>
       Some (RMatch (pos st) (pos st')
               (match grp st' with
                | Some (a, b) => slice a b whole
                | None => EmptyString
                end))).

Fixpoint search_from (ic : bool) (r : re) (whole : string)
    (i : nat) (pv : option ascii) (s : string) : option rmatch :=
  match match_at ic r whole (MState i pv s None) with
  | Some m => Some m
  | None =>
      match s with
      | String c t => search_from ic r whole (S i) (Some c) t
      | EmptyString => None
      end
  end.

(** [re.search(r, s)], with [ic] for [re.IGNORECASE] *)
Definition search (ic : bool) (r : re) (s : string) : option rmatch :=
  search_from ic r s 0 None s.

(** [re.sub(r, repl, s)] for a replacement text without back-references.
    [fuel] bounds the number of scanning steps; one more than the length of
    the text is always enough. *)
Fixpoint sub_from (fuel : nat) (ic : bool) (r : re) (repl whole : string)
    (i : nat) (pv : option ascii) (s : string) : string :=
  match fuel with
  | O => s
  | S fuel' =>
      match match_at ic r whole (MState i pv s None), s with
      | Some m, _ =>
          if (i <? m_end m)%nat
          then repl ++ sub_from fuel' ic r repl whole (m_end m)
                         (head (srev (take (m_end m - i) s))) (drop (m_end m - i) s)
          else match s with
               | String c t => repl ++ String c (sub_from fuel' ic r repl whole (S i) (Some c) t)
               | EmptyString => repl
               end
      | None, String c t => String c (sub_from fuel' ic r repl whole (S i) (Some c) t)
      | None, EmptyString => EmptyString
      end
  end.

Definition sub (ic : bool) (r : re) (repl s : string) : string :=
  sub_from (S (String.length s)) ic r repl s 0 None s.

(** [re.split(r, s)] for a pattern that cannot match the empty text (all
    the patterns the agents split on are such): the pieces between the
    matches, [cur] being the piece under way, reversed. *)
Fixpoint split_from (fuel : nat) (ic : bool) (r : re) (whole : string)
    (i : nat) (pv : option ascii) (s cur : string) : list string :=
  match fuel with
  | O => [srev cur ++ s]
  | S fuel' =>
      match s with
      | EmptyString => [srev cur]
      | String c t =>
          match match_at ic r whole (MState i pv s None) with
          | Some m =>
              if (i <? m_end m)%nat
              then srev cur ::
                   split_from fuel' ic r whole (m_end m)
                     (head (srev (take (m_end m - i) s))) (drop (m_end m - i) s)
                     EmptyString
              else split_from fuel' ic r whole (S i) (Some c) t (String c cur)
          | None => split_from fuel' ic r whole (S i) (Some c) t (String c cur)
          end
      end
  end.

Definition re_split (ic : bool) (r : re) (s : string) : list string :=
  split_from (S (String.length s)) ic r s 0 None s EmptyString.

(** Pattern building blocks *)
Fixpoint seq (l : list re) : re :=
  match l with
  | [] => Lit ""
  | [r] => r
  | r :: t => Seq r (seq t)
  end.

Fixpoint alt (l : list re) : re :=
  match l with
  | [] => Cls (fun _ => false)
  | [r] => r
  | r :: t => Alt r (alt t)
  end.

Definition lits (l : list string) : re := alt (map Lit l).

(** [\s], [.], [[a-zA-Z\s]], [[A-Za-z]], [[,\?\.!]], [[^)]] *)
Definition c_space : ascii -> bool := is_space.
Definition c_dot (c : ascii) : bool := negb (Ascii.eqb c (ascii_of_nat 10)).
Definition c_alpha_space (c : ascii) : bool := is_alpha c || is_space c.
Definition c_alpha : ascii -> bool := is_alpha.
Definition c_punct (c : ascii) : bool :=
  Ascii.eqb c "," || Ascii.eqb c "?" || Ascii.eqb c "." || Ascii.eqb c "!".
Definition c_not_rparen (c : ascii) : bool := negb (Ascii.eqb c ")").

(** [\s+], [\s*], [.*], [.+?], [[a-zA-Z\s]+?] *)
Definition sp1 : re := Rep false 1 c_space.
Definition sp0 : re := Rep false 0 c_space.
Definition dot_star : re := Rep false 0 c_dot.
Definition dot_plus_lazy : re := Rep true 1 c_dot.
Definition alpha_space_lazy : re := Rep true 1 c_alpha_space.

End Re.

Import Re.

(** ** Values, failures and the outside world *)

Definition NL : string := String (ascii_of_nat 10) EmptyString.

(** Exceptions that can cross a function boundary. *)
Inductive exn : Type :=
| TypeError (msg : string)
| OverflowError (msg : string)
| ValueError (msg : string).

Inductive result (A : Type) : Type :=
| Ok (a : A)
| Raise (e : exn).

Arguments Ok {A} a.
Arguments Raise {A} e.

Definition bind {A B} (m : result A) (f : A -> result B) : result B :=
  match m with
  | Ok a => f a
  | Raise e => Raise e
  end.

Notation "x <- m ;; k" := (bind m (fun x => k))
  (at level 61, m at next level, right associativity).

(** Outcome of an HTTP request followed by [response.json()]: the failures
    the agents catch ([RequestException], a body that does not parse), or the
    decoded data. *)
Inductive http (A : Type) : Type :=
| HttpError
| HttpOk (data : A).

Arguments HttpError {A}.
Arguments HttpOk {A} data.

(** A JSON value as Python sees it: [None], a boolean, an integer or a
    finite float (by the number that its notation denotes), an infinite
    float (what a literal such as 1e400 decodes to), a NaN, a text, a list
    or a dictionary. *)
Inductive pyval : Type :=
| PNone
| PBool (b : bool)
| PNum (q : Q)
| PInf (negative : bool)
| PNaN
| PStr (s : string)
| PList
| PDict.

(** One Nominatim search result: the keys the agents read.  A key that is
    absent is [None].  "lat" and "lon" are texts: a present one is given by
    the finite number that [float] makes of it, [None] when [float] raises
    [ValueError]. *)
Record Location : Type := MkLocation {
  loc_type : option string;          (* "type" *)
  loc_class : option string;         (* "class" *)
  loc_importance : option Q;         (* "importance" *)
  loc_display_name : option string;  (* "display_name" *)
  loc_name : option string;          (* "name" *)
  loc_name_colon_en : option string; (* "name:en" *)
  loc_name_en : option string;       (* "name_en" *)
  loc_lat : option (option Q);       (* "lat" *)
  loc_lon : option (option Q)        (* "lon" *)
}.

(** The "current" object of an Open-Meteo answer. *)
Record CurrentWeather : Type := MkCurrent {
  temperature_2m : option pyval;
  cur_precipitation_probability : option pyval
}.

(** The dictionary [PlacesAgent.get_place_details] returns. *)
Record PlaceDetails : Type := MkDetails {
  d_name : string;
  d_description : option string;
  d_display_name : string;
  d_opening_hours : option string;
  d_fee : option string;
  d_heritage : option string;
  d_historic : option string;
  d_website : option string
}.

Record World : Type := MkWorld {
  (** [datetime.datetime.now().hour] *)
  now_hour : nat;
  (** the index [random.choice] draws *)
  random_index : nat;
  (** GET nominatim/search?q=..., the decoded list *)
  nominatim : string -> http (list Location);
  (** GET open-meteo forecast, the "current" object when there is one *)
  open_meteo : Q -> Q -> http (option CurrentWeather);
  (** POST overpass, the "elements" list when there is one; each element is
      its tags' "name" *)
  overpass : Q -> Q -> http (option (list (option string)));
  (** the outcome of [PlacesAgent.get_place_details]: its own requests to
      Nominatim and Overpass, every exception caught *)
  place_details : string -> option PlaceDetails
}.

Definition Qlt_b (a b : Q) : bool := negb (Qle_bool b a).
Definition Qle_b (a b : Q) : bool := Qle_bool a b.

(** Python's [round(x)] to an integer: to nearest, ties to even. *)
Definition py_round (q : Q) : Z :=
  let f := Qfloor q in
  let r := (q - inject_Z f)%Q in
  if Qlt_b r (1 # 2) then f
  else if Qlt_b (1 # 2) r then (f + 1)%Z
  else if Z.even f then f else (f + 1)%Z.

(** [str(n)] for an integer *)
Definition str_of_Z (z : Z) : string :=
  NilZero.string_of_int (Z.to_int z).

Definition get_str (o : option string) : string :=
  match o with Some s => s | None => EmptyString end.

(** A value that is absent, [None] or empty is falsy. *)
Definition opt_truthy_s (o : option string) : option string :=
  match o with
  | Some s => if truthy s then Some s else None
  | None => None
  end.

Definition get_num (o : option Q) : Q :=
  match o with Some q => q | None => 0%Q end.

(** ** agents/weather_agent.py *)

Module WeatherAgent.

Record weather_data : Type := MkWeather {
  temperature : pyval;
  precipitation_probability : pyval;
  success : bool
}.

Definition get_weather (w : World) (latitude longitude : Q) : option weather_data :=
  match open_meteo w latitude longitude with
  | HttpError => None
  | HttpOk None => None
  | HttpOk (Some current) =>
      let temperature :=
        match temperature_2m current with Some v => v | None => PStr "N/A" end in
      let precipitation_prob :=
        match cur_precipitation_probability current with
        | Some v => v
        | None => PNum 0
        end in
      Some (MkWeather temperature precipitation_prob true)
  end.

(** [round(v)]: an integer for a number or a boolean; an infinite float, a
    NaN and every other value raise. *)
Definition round (v : pyval) : result Z :=
  match v with
  | PNum q => Ok (py_round q)
  | PBool b => Ok (if b then 1 else 0)%Z
  | PInf _ => Raise (OverflowError "cannot convert float infinity to integer")
  | PNaN => Raise (ValueError "cannot convert float NaN to integer")
  | PStr _ => Raise (TypeError "type str doesn't define __round__ method")
  | PNone => Raise (TypeError "type NoneType doesn't define __round__ method")
  | PList => Raise (TypeError "type list doesn't define __round__ method")
  | PDict => Raise (TypeError "type dict doesn't define __round__ method")
  end.

Definition format_weather_response (weather : option weather_data)
    (place_name : string) : result string :=
  match weather with
  | None => Ok ("Unable to fetch weather information for " ++ place_name ++ ".")
  | Some wd =>
      if negb (success wd)
      then Ok ("Unable to fetch weather information for " ++ place_name ++ ".")
      else
        let temp := temperature wd in
        let rain_chance := precipitation_probability wd in
        temp_str <-
          match temp with
          | PNone => Ok "N/A"
          | _ => t <- round temp ;; Ok (str_of_Z t ++ "Â°C")
          end ;;
        rain_chance_rounded <- round rain_chance ;;
        Ok ("In " ++ place_name ++ " it's currently " ++ temp_str
            ++ " with a chance of " ++ str_of_Z rain_chance_rounded ++ "% to rain.")
  end.

End WeatherAgent.

(** ** agents/places_agent.py *)

Module PlacesAgent.

Definition max_places : nat := 5.

(** The result of [get_coordinates_with_details]. *)
Record geocoding_data : Type := MkGeo {
  coordinates : Q * Q;
  info : Location
}.

Definition major_cities : list string :=
  ["london"; "paris"; "tokyo"; "baku"; "istanbul"; "moscow"; "cairo"].

(** The score of one candidate in [get_coordinates_with_details], on the
    exact values: the code adds floats, so two scores that are equal here
    can differ there in the last bit, and conversely. *)
Definition score (place_lower : string) (location : Location) : Q :=
  let place_type := lower (get_str (loc_type location)) in
  let place_class := lower (get_str (loc_class location)) in
  let importance := get_num (loc_importance location) in
  let display_name := lower (get_str (loc_display_name location)) in
  let s0 : Q :=
    if mem place_type ["city"; "town"] then 100%Q
    else if place_type =? "village" then 50%Q
    else if place_class =? "place" then 75%Q
    else if (place_class =? "boundary") && (place_type =? "administrative") then
      if mem place_lower major_cities then 90%Q
      else if Qlt_b (6 # 10) importance then 80%Q
      else if contains "city" display_name || contains "town" display_name then 70%Q
      else if Qlt_b (4 # 10) importance then 60%Q
      else 20%Q
    else 0%Q in
  let s1 := (s0 + importance * 10)%Q in
  if truthy display_name && contains place_lower display_name
  then
    let first_part := strip (hd EmptyString (split "," display_name)) in
    if contains place_lower first_part then (s1 + 15)%Q else s1
  else s1.

(** The loop that keeps the first candidate with the highest score. *)
Fixpoint best_match (place_lower : string) (data : list Location)
    (best_location : option Location) (best_score : Q) : option Location :=
  match data with
  | [] => best_location
  | location :: data' =>
      let sc := score place_lower location in
      if Qlt_b best_score sc
      then best_match place_lower data' (Some location) sc
      else best_match place_lower data' best_location best_score
  end.

Definition set_name (location : Location) (name : string) : Location :=
  MkLocation (loc_type location) (loc_class location) (loc_importance location)
    (loc_display_name location) (Some name) (loc_name_colon_en location)
    (loc_name_en location) (loc_lat location) (loc_lon location).

(** The name the selected candidate is given. *)
Definition english_name (location : Location) : Location :=
  let display_name := get_str (loc_display_name location) in
  let name := get_str (loc_name location) in
  match loc_name_colon_en location with
  | Some en => set_name location en
  | None =>
      if truthy name && negb (sany non_ascii name) then location
      else if truthy display_name then
        let first_part := strip (hd EmptyString (split "," display_name)) in
        if sany non_ascii first_part then
          match loc_name_en location with
          | Some alt_name =>
              if truthy alt_name && negb (sany non_ascii alt_name)
              then set_name location alt_name
              else location
          | None => location
          end
        else location
      else location
  end.

(** [float(location.get(key, 0))]: 0 for a missing key, [None] when [float]
    raises the [ValueError] that [get_coordinates_with_details] catches. *)
Definition to_float (field : option (option Q)) : option Q :=
  match field with
  | None => Some 0%Q
  | Some parsed => parsed
  end.

Definition get_coordinates_with_details (w : World) (place_name : string)
  : option geocoding_data :=
  match nominatim w place_name with
  | HttpError => None
  | HttpOk [] => None
  | HttpOk (first :: others) =>
      let place_lower := strip (lower place_name) in
      let location :=
        match best_match place_lower (first :: others) None (-1)%Q with
        | Some l => l
        | None => first
        end in
      match to_float (loc_lat location), to_float (loc_lon location) with
      | Some lat, Some lon => Some (MkGeo (lat, lon) (english_name location))
      | _, _ => None
      end
  end.

Definition get_coordinates (w : World) (place_name : string) : option (Q * Q) :=
  match get_coordinates_with_details w place_name with
  | Some result => Some (coordinates result)
  | None => None
  end.

Definition _normalize_name (name : string) : string :=
  Re.sub false sp1 " " (lower (strip name)).

Definition common_words : list string := ["the"; "a"; "an"; "of"; "in"; "at"].

(** [matches >= min(len(words1), len(words2)) * 0.7]: the product is the
    double nearest to seven tenths of the smaller count (never above it, and
    less than one below it), so comparing it with the integer [matches] is
    comparing [10 * matches] with [7 * min]. *)
Definition _is_similar (name1 name2 : string) : bool :=
  let norm1 := _normalize_name name1 in
  let norm2 := _normalize_name name2 in
  if norm1 =? norm2 then true
  else if (contains norm1 norm2 || contains norm2 norm1)
          && (3 <? py_len norm1)%nat && (3 <? py_len norm2)%nat
  then true
  else
    let words1 := filter (fun x => negb (mem x common_words)) (split_ws norm1) in
    let words2 := filter (fun x => negb (mem x common_words)) (split_ws norm2) in
    if (0 <? List.length words1)%nat && (0 <? List.length words2)%nat
    then
      let matches := List.length (filter (fun x => mem x words2) words1) in
      (7 * Nat.min (List.length words1) (List.length words2) <=? 10 * matches)%nat
    else false.

(** [seen_places]: a dictionary, in insertion order. *)
Definition dict : Type := list (string * string).

Fixpoint dict_set (k v : string) (d : dict) : dict :=
  match d with
  | [] => [(k, v)]
  | (k', v') :: d' => if k' =? k then (k, v) :: d' else (k', v') :: dict_set k v d'
  end.

Definition dict_del (k : string) (d : dict) : dict :=
  filter (fun kv => negb (fst kv =? k)) d.

(** The first entry of [seen_places] whose name is similar to [place]. *)
Definition first_similar (place : string) (seen_places : dict)
  : option (string * string) :=
  List.find (fun kv => _is_similar place (snd kv)) seen_places.

(** One round of the loop of [_refine_places] on [(refined, seen_places)]. *)
Definition refine_step (st : list string * dict) (place : string)
  : list string * dict :=
  let (refined, seen_places) := st in
  let normalized := _normalize_name place in
  match first_similar place seen_places with
  | Some (seen_norm, seen_orig) =>
      if (py_len seen_orig <? py_len place)%nat
      then ((filter (fun p => negb (p =? seen_orig)) refined ++ [place])%list,
            dict_set normalized place (dict_del seen_norm seen_places))
      else (refined, seen_places)
  | None => ((refined ++ [place])%list, dict_set normalized place seen_places)
  end.

Definition refine_loop (places : list string) : list string * dict :=
  fold_left refine_step places ([], []).

Definition _refine_places (places : list string) : list string :=
  match places with
  | [] => []
  | _ => firstn max_places (fst (refine_loop places))
  end.

Definition get_tourist_attractions (w : World) (latitude longitude : Q)
  : list string :=
  match overpass w latitude longitude with
  | HttpError => []
  | HttpOk elements =>
      let names := match elements with Some l => l | None => [] end in
      let places :=
        flat_map (fun name =>
                    match name with
                    | Some n => if truthy n && truthy (strip n) then [strip n] else []
                    | None => []
                    end) names in
      firstn max_places (_refine_places places)
  end.

Definition greetings (place_name : string) : list string :=
  ["Here are some amazing places in " ++ place_name ++ " you shouldn't miss!";
   "Your adventure in " ++ place_name ++ " could start at these gems:";
   "Discover these must-see spots in " ++ place_name ++ ":";
   "Ready to explore " ++ place_name ++ "? Check out these places:";
   "Here are five fantastic places to visit in " ++ place_name ++ ":"].

(** [random.choice(l)] for a non-empty list *)
Definition choice (w : World) (l : list string) : string :=
  nth (random_index w mod List.length l) l EmptyString.

Definition format_places_response (w : World) (places : list string)
    (place_name : string) : string :=
  match places with
  | [] =>
      "Unfortunately, I couldn't find many tourist attractions listed for "
      ++ place_name
      ++ ". This might be a remote location or the area may have limited tourist data available."
  | _ =>
      let response := choice w (greetings place_name) ++ NL ++ NL in
      let response :=
        fold_left (fun acc place => acc ++ "- " ++ place ++ NL) places response in
      strip (response ++ NL ++ "💡 Tip: Click on any place to learn more about it!")
  end.

Definition format_place_details_response (details : PlaceDetails) : string :=
  let name := d_name details in
  let response := "**" ++ name ++ "**" ++ NL ++ NL in
  let response :=
    match opt_truthy_s (d_description details) with
    | Some description => response ++ description ++ NL ++ NL
    | None => response
    end in
  let display_name := d_display_name details in
  let response :=
    if truthy display_name then
      let parts := split "," display_name in
      let location := strip (hd EmptyString parts) in
      let location :=
        if (1 <? List.length parts)%nat
        then location ++ ", " ++ strip (nth 1 parts EmptyString)
        else location in
      response ++ "📍 Location: " ++ location ++ NL ++ NL
    else response in
  let response :=
    match opt_truthy_s (d_opening_hours details) with
    | Some opening_hours => response ++ "🕐 Opening Hours: " ++ opening_hours ++ NL ++ NL
    | None => response
    end in
  let response :=
    match opt_truthy_s (d_fee details) with
    | Some fee => response ++ "💰 Admission: " ++ fee ++ NL ++ NL
    | None => response
    end in
  let response :=
    match opt_truthy_s (d_heritage details), opt_truthy_s (d_historic details) with
    | Some heritage, _ => response ++ "🏛️ Heritage Status: " ++ heritage ++ NL ++ NL
    | None, Some historic => response ++ "🏛️ Historic Site: " ++ historic ++ NL ++ NL
    | None, None => response
    end in
  let response :=
    match opt_truthy_s (d_website details) with
    | Some website => response ++ "🌐 Website: " ++ website ++ NL ++ NL
    | None => response
    end in
  let response :=
    if response =? "**" ++ name ++ "**" ++ NL ++ NL
    then
      let r := response ++ name ++ " is a notable tourist attraction" in
      let r :=
        if truthy display_name
        then r ++ " located in " ++ strip (hd EmptyString (split "," display_name))
        else r in
      r ++ "."
    else response in
  strip response.

End PlacesAgent.

(** ** agents/tourism_agent.py *)

Module TourismAgent.

Definition greetings : list string :=
  ["hi"; "hello"; "hey"; "greetings"; "good morning"; "good afternoon"; "good evening"].

(** *** extract_place_name *)

(** [[,\?\.!]+$] *)
Definition punct_tail : re := seq [Rep false 1 c_punct; Eos].

(** [re.sub(r'[,\?\.!]+$', '', s).strip()] *)
Definition clean_tail (s : string) : string := strip (Re.sub false punct_tail "" s).

(** [\s+(w1|w2|...).*$], used to cut a capture at its first trailing word *)
Definition trailing (ws : list string) : re := seq [sp1; Grp (lits ws); dot_star; Eos].

(** The loop that moves [end_pos] back to the first stop text found in
    [text] from [start_idx] on. *)
Definition stop_at (stops : list string) (text : string) (start_idx end_pos : nat) : nat :=
  fold_left
    (fun end_pos stop =>
       match find_from stop text start_idx with
       | Some stop_idx => if (stop_idx <? end_pos)%nat then stop_idx else end_pos
       | None => end_pos
       end)
    stops end_pos.

Definition stop_chars : list string := [","; "?"; "!"; "."].

(** [s.title() if s[0].islower() else s] *)
Definition title_if_lower (s : string) : string :=
  if head_is is_lower s then title s else s.

Definition long_enough (place : string) : bool :=
  truthy place && (2 <? py_len place)%nat.

Definition weather_in_re : re :=
  seq [Lit "weather"; sp1; lits ["in"; "at"; "for"]; sp1; Grp alpha_space_lazy;
       alt [Seq sp1 (Lit "like"); Lit "?"; Eos; Lit ","; Lit "."; Lit "what";
            Lit "where"; Lit "how"; Lit "and"]].

Definition pattern1 (user_input : string) : option string :=
  let original_input := user_input in
  match Re.search true weather_in_re user_input with
  | None => None
  | Some m =>
      let place := strip (group1 m) in
      let place :=
        strip (Re.sub true
                 (trailing ["and"; "what"; "where"; "how"; "is"; "the"; "like";
                            "can"; "i"; "visit"; "places"]) "" place) in
      if long_enough place then
        let original_lower := lower original_input in
        let place_lower := lower place in
        match find place_lower original_lower with
        | Some start_idx =>
            let end_idx := start_idx + String.length place in
            let extracted := strip (slice start_idx end_idx original_input) in
            let extracted := clean_tail extracted in
            if truthy extracted then Some extracted else Some (title place)
        | None => Some (title place)
        end
      else None
  end.

Definition in_re : re :=
  seq [Wordb; Lit "in"; sp1; Grp (Seq (Cls c_alpha) alpha_space_lazy);
       alt [Lit ","; Lit "?"; Eos; Lit "what"; Lit "where"; Lit "how"; Lit "can";
            Lit "i"; Lit "visit"; Lit "places"; Lit "is"; Lit "the";
            Lit "temperature"; Lit "weather"; Lit "and"]].

Definition pattern2 (user_input : string) : option string :=
  let original_input := user_input in
  match Re.search true in_re user_input with
  | None => None
  | Some m =>
      let place := strip (group1 m) in
      let place :=
        strip (Re.sub true
                 (trailing ["and"; "what"; "where"; "how"; "can"; "i"; "visit";
                            "places"; "is"; "the"; "temperature"; "weather"; "like"])
                 "" place) in
      if long_enough place then
        let original_lower := lower original_input in
        let place_lower := lower place in
        match find place_lower original_lower with
        | Some start_idx =>
            let end_pos :=
              stop_at stop_chars original_input start_idx (String.length original_input) in
            let extracted := strip (slice start_idx end_pos original_input) in
            let extracted := clean_tail extracted in
            if truthy extracted then Some extracted else Some (strip place)
        | None => Some (strip place)
        end
      else None
  end.

Definition places_tail : re :=
  alt [Lit "?"; Eos; Lit ","; Lit "."; Lit "what"; Lit "where"; Lit "how"; Lit "and"].

Definition to_visit_opt : re := Opt (seq [Lit "to"; sp1; Lit "visit"; sp1]).

Definition places_in_re : re :=
  seq [Lit "places"; sp1; to_visit_opt;
       alt [Lit "in"; Lit "at"; Lit "for"; Lit "to";
            seq [Lit "i"; sp1; Lit "can"; sp1; Lit "go"; sp1; Lit "to"]];
       sp1; Grp alpha_space_lazy; places_tail].

Definition after_for_re : re :=
  seq [Lit "places"; sp1; to_visit_opt; Lit "for"; sp1; Grp alpha_space_lazy; places_tail].

Definition pattern3 (user_input : string) : option string :=
  let original_input := user_input in
  match Re.search true places_in_re user_input with
  | None => None
  | Some m =>
      let place := strip (group1 m) in
      let place :=
        strip (Re.sub true
                 (trailing ["and"; "for"; "what"; "where"; "how"; "can"; "i"; "visit";
                            "places"; "is"; "the"; "like"]) "" place) in
      let place :=
        if lower place =? "for" then
          match Re.search true after_for_re user_input with
          | Some after_for =>
              let place := strip (group1 after_for) in
              strip (Re.sub true
                       (trailing ["and"; "what"; "where"; "how"; "can"; "i"; "visit";
                                  "places"; "is"; "the"; "like"]) "" place)
          | None => place
          end
        else place in
      if long_enough place then
        let original_lower := lower original_input in
        let place_lower := lower place in
        match find place_lower original_lower with
        | Some start_idx =>
            let end_pos :=
              stop_at stop_chars original_input start_idx (String.length original_input) in
            let extracted := strip (slice start_idx end_pos original_input) in
            let extracted := clean_tail extracted in
            if truthy extracted then Some extracted else Some (title place)
        | None => Some (title place)
        end
      else None
  end.

Definition travel_phrases : list string :=
  ["going to go to"; "going to"; "travel to"; "trip to"].

Definition stop_words4 : list string :=
  ["let's"; "let"; "plan"; "my"; "trip"; "what"; "is"; "the"; "temperature"; "there";
   "and"; "are"; "places"; "i"; "can"; "visit"; "show"; "me"; "like"].

(** The words before the first stop word. *)
Fixpoint take_until_stop (stop_words words : list string) : list string :=
  match words with
  | [] => []
  | word :: rest =>
      if mem word stop_words then [] else word :: take_until_stop stop_words rest
  end.

Definition pattern4_one (user_input pattern : string) : option string :=
  let user_lower := lower user_input in
  let original_input := user_input in
  match split_once pattern user_lower with
  | None => None
  | Some (_, after) =>
      let place := strip after in
      let place := strip (Re.sub false (seq [Cls c_punct; dot_star; Eos]) "" place) in
      let words := split_ws place in
      let filtered_words := take_until_stop stop_words4 words in
      match filtered_words with
      | [] => None
      | _ =>
          let original_words := split_ws original_input in
          let matched :=
            filter (fun orig_word => mem (lower orig_word) (map lower filtered_words))
                   original_words in
          match matched with
          | [] => Some (title (join " " filtered_words))
          | _ => Some (join " " matched)
          end
      end
  end.

Fixpoint first_some {A B} (f : A -> option B) (l : list A) : option B :=
  match l with
  | [] => None
  | x :: t => match f x with Some b => Some b | None => first_some f t end
  end.

Definition pattern4 (user_input : string) : option string :=
  first_some (pattern4_one user_input) travel_phrases.

Definition temp_of_re : re :=
  seq [Lit "temperature"; sp1; lits ["of"; "in"; "at"]; sp1; Grp alpha_space_lazy;
       alt [Seq sp1 (Lit "and"); seq [sp1; Lit "n"; sp1]; Seq sp1 (Lit "places");
            Lit "?"; Eos; Lit ","; Lit "."]].

Definition pattern5 (user_input : string) : option string :=
  let original_input := user_input in
  match Re.search true temp_of_re user_input with
  | None => None
  | Some m =>
      let place := strip (group1 m) in
      let place :=
        strip (Re.sub true
                 (trailing ["and"; "n"; "places"; "visit"; "there"; "to"; "the"]) "" place) in
      if long_enough place then
        let original_lower := lower original_input in
        let place_lower := lower place in
        match find place_lower original_lower with
        | Some start_idx =>
            let end_pos :=
              stop_at [" and"; " n "; " places"; " visit"; " there"]
                      original_lower start_idx (String.length original_input) in
            let extracted := strip (slice start_idx end_pos original_input) in
            if truthy extracted then Some extracted else Some (title place)
        | None => Some (title place)
        end
      else None
  end.

(** [temperat?u?r?e?] *)
Definition temperature_typo : re :=
  seq [Lit "tempera"; Opt (Lit "t"); Opt (Lit "u"); Opt (Lit "r"); Opt (Lit "e")].

Definition keywords_pattern : re :=
  alt [temperature_typo; Lit "weather"; Lit "places"; Lit "visit"; Lit "attractions";
       Lit "tourist"].

Definition simple_re : re :=
  seq [Bos; Grp (Seq (Cls c_alpha) alpha_space_lazy); sp1;
       Alt keywords_pattern (seq [sp1; Lit "n"; sp1])].

Definition keyword_re : re :=
  seq [sp1;
       alt [temperature_typo; Lit "weather"; Lit "places"; Lit "visit";
            Lit "attractions"; Lit "tourist"; seq [sp1; Lit "n"; sp1];
            seq [sp1; Lit "and"; sp1]]].

Definition pattern6 (user_input : string) : option string :=
  let original_input := user_input in
  match Re.search true simple_re user_input with
  | None => None
  | Some m =>
      let place := strip (group1 m) in
      let place := strip place in
      if long_enough place then
        let original_lower := lower original_input in
        let place_lower := lower place in
        match find place_lower original_lower with
        | Some start_idx =>
            match Re.search true keyword_re (drop start_idx original_lower) with
            | Some keyword_match =>
                let end_pos := start_idx + m_start keyword_match in
                let extracted := strip (slice start_idx end_pos original_input) in
                if truthy extracted then Some extracted else Some (title place)
            | None =>
                let extracted :=
                  strip (slice start_idx (start_idx + String.length place) original_input) in
                if truthy extracted then Some extracted else Some (title place)
            end
        | None => Some (title place)
        end
      else None
  end.

Definition common_words : list string :=
  ["what"; "where"; "how"; "when"; "why"; "the"; "a"; "an"; "is"; "are"; "can"; "i"; "more"].

Definition pattern7 (user_input : string) : option string :=
  let words := split_ws user_input in
  match words with
  | [] => None
  | first :: others =>
      if (List.length words =? 1)%nat
         || ((List.length words =? 2)%nat
             && mem (lower (nth 1 words EmptyString))
                    ["temperature"; "weather"; "places"; "?"])
      then
        let place := clean_tail first in
        if long_enough place && head_is is_alpha place
        then if negb (mem (lower place) common_words)
             then Some (title_if_lower place)
             else None
        else None
      else None
  end.

Definition question_re : re :=
  seq [Bos; Grp (Seq (Cls c_alpha) alpha_space_lazy); alt [Lit "?"; Lit "!"; Eos]].

Definition pattern8 (user_input : string) : option string :=
  let words := split_ws user_input in
  match Re.search true question_re user_input with
  | None => None
  | Some m =>
      if (List.length words <=? 2)%nat then
        let place := strip (group1 m) in
        let place := clean_tail place in
        if long_enough place
        then if negb (mem (lower place) common_words)
             then Some (title_if_lower place)
             else None
        else None
      else None
  end.

Definition stop_words_lower : list string :=
  ["what"; "is"; "the"; "weather"; "in"; "at"; "for"; "like"; "places"; "to"; "visit";
   "can"; "i"; "go"; "temperature"; "more"; "and"; "n"; "there"; "also"].

(** The loop of pattern 9 over the remaining [words], with
    [capitalized_words] collected so far. *)
Fixpoint capitalized_run (words capitalized_words : list string) : list string :=
  match words with
  | [] => capitalized_words
  | word :: rest =>
      let word_lower := lower word in
      if mem word_lower stop_words_lower then
        match capitalized_words with
        | [] => capitalized_run rest capitalized_words
        | _ => capitalized_words
        end
      else if head_is is_upper word && isalpha word then
        capitalized_run rest (capitalized_words ++ [word])%list
      else
        match capitalized_words with
        | [] => capitalized_run rest capitalized_words
        | _ =>
            if isalpha word && negb (mem word_lower stop_words_lower)
            then capitalized_run rest (capitalized_words ++ [word])%list
            else capitalized_words
        end
  end.

Definition pattern9 (user_input : string) : option string :=
  match capitalized_run (split_ws user_input) [] with
  | [] => None
  | capitalized_words => Some (join " " capitalized_words)
  end.

Definition common_words10 : list string :=
  ["what"; "where"; "how"; "when"; "why"; "the"; "a"; "an"; "is"; "are"; "can"; "i";
   "more"; "temperature"; "weather"; "places"; "visit"; "and"; "n"; "there"; "also"].

Fixpoint pattern10_loop (words : list string) : option string :=
  match words with
  | [] => None
  | word :: rest =>
      let cleaned := clean_tail word in
      if (3 <=? py_len cleaned)%nat && head_is is_alpha cleaned
         && negb (mem (lower cleaned) common_words10)
      then
        match rest with
        | next :: _ =>
            if mem (lower next)
                 ["and"; "n"; "places"; "visit"; "there"; "temperature"; "weather"]
            then Some (title_if_lower cleaned)
            else Some (title_if_lower cleaned)
        | [] => Some (title_if_lower cleaned)
        end
      else pattern10_loop rest
  end.

Definition pattern10 (user_input : string) : option string :=
  pattern10_loop (split_ws user_input).

Definition extract_place_name (user_input : string) : option string :=
  first_some (fun pattern => pattern user_input)
    [pattern1; pattern2; pattern3; pattern4; pattern5; pattern6; pattern7; pattern8;
     pattern9; pattern10].

(** *** determine_intent *)

Record intent : Type := MkIntent {
  weather : bool;
  places : bool;
  timing : bool;
  place_detail : bool
}.

Definition place_detail_keywords : list string :=
  ["tell me about"; "information about"; "details about"; "what is"; "tell me more";
   "about"; "info"].

Definition timing_keywords : list string :=
  ["timing"; "hours"; "open"; "closed"; "schedule"; "when"; "time to visit";
   "visiting hours"; "opening hours"].

Definition weather_keywords : list string :=
  ["temperature"; "temperture"; "temprature"; "temp"; "weather"; "rain"; "forecast";
   "climate"; "hot"; "cold"; "degrees"].

Definition places_keywords : list string :=
  ["places"; "visit"; "attractions"; "tourist"; "go"; "see"; "sightseeing"; "sights";
   "landmarks"; "what to see"; "where to go"].

Definition places_phrases : list string :=
  ["what places"; "where to"; "places to"; "places can"; "places i"; "attractions"].

Definition trip_words : list string := ["going"; "trip"; "travel"; "plan"].

Definition determine_intent (user_input : string) : intent :=
  let user_lower := lower user_input in
  let wants_place_detail := any_in place_detail_keywords user_lower in
  let wants_timing := any_in timing_keywords user_lower in
  let wants_weather := any_in weather_keywords user_lower in
  let wants_places := any_in places_keywords user_lower in
  let wants_places :=
    if any_in places_phrases user_lower then true else wants_places in
  let wants_places :=
    if wants_weather && negb wants_places then false else wants_places in
  if negb wants_weather && negb wants_places && negb wants_place_detail then
    if any_in trip_words user_lower then
      MkIntent true true wants_timing wants_place_detail
    else if (List.length (split_ws user_lower) <=? 3)%nat then
      MkIntent wants_weather true wants_timing wants_place_detail
    else
      MkIntent wants_weather true wants_timing wants_place_detail
  else MkIntent wants_weather wants_places wants_timing wants_place_detail.

(** *** extract_place_detail_query *)

(** [(?:\?|$|\.|,|please)] *)
Definition detail_end : re := alt [Lit "?"; Eos; Lit "."; Lit ","; Lit "please"].

Definition detail_patterns : list re :=
  [seq [Lit "tell me "; Opt (Lit "more "); Lit "about "; Grp dot_plus_lazy; detail_end];
   seq [Lit "information about "; Grp dot_plus_lazy; detail_end];
   seq [Lit "details about "; Grp dot_plus_lazy; detail_end];
   seq [Lit "what is "; Grp dot_plus_lazy; detail_end];
   seq [Lit "tell me "; Grp dot_plus_lazy; detail_end];
   seq [Lit "about "; Grp dot_plus_lazy; detail_end];
   seq [Lit "info "; Grp dot_plus_lazy; detail_end]].

Definition detail_one (user_input : string) (pattern : re) : option string :=
  match Re.search true pattern user_input with
  | None => None
  | Some m =>
      let place := strip (group1 m) in
      let place :=
        strip (Re.sub true
                 (trailing ["please"; "thanks"; "thank you"; "tell me"; "more"; "info"])
                 "" place) in
      if long_enough place then Some place else None
  end.

Definition extract_place_detail_query (user_input : string) : option string :=
  match first_some (detail_one user_input) detail_patterns with
  | Some place => Some place
  | None =>
      let words := split_ws user_input in
      if (2 <=? List.length words)%nat && (List.length words <=? 5)%nat then
        match filter (head_is is_upper) words with
        | [] => None
        | capitalized_words => Some (join " " capitalized_words)
        end
      else None
  end.

(** *** is_greeting, is_goodbye *)

Definition is_greeting (user_input : string) : bool :=
  let user_lower := strip (lower user_input) in
  if any_in ["weather"; "temperature"; "places"; "visit"; "attractions"; "in "; "at "]
            user_lower
  then false
  else existsb (fun greeting =>
                  (greeting =? user_lower) || startswith (greeting ++ " ") user_lower)
               greetings.

Definition goodbye_phrases : list string :=
  ["bye"; "goodbye"; "see you"; "see ya"; "farewell"; "exit";
   "quit"; "close"; "thanks"; "thank you"; "thank"; "thx";
   "appreciate it"; "that's all"; "that's it"; "done"; "finished"].

Definition is_goodbye (user_input : string) : bool :=
  let user_lower := strip (lower user_input) in
  existsb (fun phrase =>
             (phrase =? user_lower)
             || startswith (phrase ++ " ") user_lower
             || endswith (" " ++ phrase) user_lower)
          goodbye_phrases.

(** *** split_multiple_queries *)

Definition separators : list string := [" and "; " & "; " plus "; "?"; "!"].

(** [[p.strip() for p in parts if p.strip()]] *)
Definition stripped_parts (parts : list string) : list string :=
  flat_map (fun p => if truthy (strip p) then [strip p] else []) parts.

(** One round of the loop over [separators]. *)
Definition split_on_separator (queries : list string) (sep : string) : list string :=
  flat_map
    (fun query =>
       if contains sep (lower query)
       then stripped_parts (re_split true (Lit sep) query)
       else [query])
    queries.

Definition split_multiple_queries (user_input : string) : list string :=
  let user_lower := lower user_input in
  let by_separators := fold_left split_on_separator separators [user_input] in
  if contains " also " user_lower || startswith "also " user_lower then
    match re_split true (seq [sp1; Lit "also"; sp1]) user_input with
    | first :: part :: more => strip first :: stripped_parts (part :: more)
    | _ => by_separators
    end
  else by_separators.

(** *** check_if_state_or_region *)

Definition major_cities : list string :=
  ["london"; "paris"; "tokyo"; "baku"; "istanbul"; "moscow"; "cairo";
   "delhi"; "mumbai"; "bangalore"; "kolkata"; "chennai"; "hyderabad";
   "new york"; "los angeles"; "chicago"; "houston"; "phoenix";
   "sydney"; "melbourne"; "toronto"; "vancouver"; "montreal";
   "berlin"; "madrid"; "rome"; "amsterdam"; "vienna"; "prague";
   "dubai"; "riyadh"; "doha"; "singapore"; "hong kong"; "seoul";
   "beijing"; "shanghai"; "bangkok"; "jakarta"; "manila";
   "mexico city"; "sao paulo"; "rio de janeiro"; "buenos aires";
   "lagos"; "nairobi"; "johannesburg"; "cape town"].

Definition city_indicators : list string :=
  ["city"; "town"; "village"; "municipality"; "suburb"].

(** [pattern in display_name and display_name.index(pattern) < 50] *)
Definition occurs_early (pattern display_name : string) : bool :=
  match find pattern display_name with
  | Some i => (py_len (take i display_name) <? 50)%nat
  | None => false
  end.

Definition check_if_state_or_region (place_name : string)
    (geocoding_result : Location) : bool :=
  let place_type := lower (get_str (loc_type geocoding_result)) in
  let place_class := lower (get_str (loc_class geocoding_result)) in
  let display_name := lower (get_str (loc_display_name geocoding_result)) in
  let place_lower := lower place_name in
  let normalized_place := strip place_lower in
  if mem normalized_place major_cities then false
  else if existsb (fun pattern => occurs_early pattern display_name)
            [place_lower ++ ","; ", " ++ place_lower ++ ","]
  then false
  else if (contains "city" display_name || contains "town" display_name)
          && contains place_lower display_name
  then false
  else if existsb (fun indicator =>
                     contains indicator place_type || contains indicator place_class)
                  city_indicators
  then false
  else if (place_class =? "boundary") && (place_type =? "administrative")
          && contains "country" display_name && contains place_lower display_name
          && Qlt_b (8 # 10) (get_num (loc_importance geocoding_result))
  then true
  else if contains "administrative" place_type && (place_class =? "administrative")
  then
    let importance := get_num (loc_importance geocoding_result) in
    if Qle_b (4 # 10) importance && Qle_b importance (7 # 10) then
      let parts := split "," display_name in
      if (1 <? List.length parts)%nat then
        let first_part := lower (strip (hd EmptyString parts)) in
        if negb (contains place_lower first_part)
        then negb (existsb (fun part => contains "city" part || contains "town" part) parts)
        else false
      else false
    else false
  else false.

(** *** process_query *)

Definition farewell : string :=
  "👋 Goodbye! It was great helping you plan your trip. Safe travels and enjoy your journey! 🌍✈️".

Definition time_greeting (hour : nat) : string :=
  if (hour <? 12)%nat then "Good morning"
  else if (hour <? 18)%nat then "Good afternoon"
  else "Good evening".

Definition greeting_text (hour : nat) : string :=
  time_greeting hour ++ "! 👋 I'm your travel planning assistant!" ++ NL ++ NL
  ++ "I can help you with:" ++ NL
  ++ "- 🌤️ Current weather and forecasts" ++ NL
  ++ "- 📍 Must-see attractions and hidden gems" ++ NL ++ NL
  ++ "Where would you like to explore? Try asking:" ++ NL
  ++ "- 'What's the weather in Bangalore?'" ++ NL
  ++ "- 'What places can I visit in Paris?'" ++ NL
  ++ "- 'Tell me about Tokyo - weather and places!'".

Definition need_more_text : string :=
  "I need more information to help you. Please tell me:" ++ NL
  ++ "- A place name (e.g., 'Bangalore', 'Paris', 'New York')" ++ NL
  ++ "- What you'd like to know (weather, places to visit, or both)".

Definition timing_text : string :=
  "I understand you're asking about visiting hours or timings. Unfortunately, the data source I use (Overpass API) doesn't provide timing information for tourist attractions."
  ++ NL ++ NL
  ++ "For visiting hours, I recommend:" ++ NL
  ++ "- Checking the official website of the attraction" ++ NL
  ++ "- Using Google Maps or similar services" ++ NL
  ++ "- Contacting local tourism offices" ++ NL ++ NL
  ++ "I can still help you with weather information and suggest places to visit!".

Definition no_details_text (place_detail_name : string) : string :=
  "Sorry, detailed information about '" ++ place_detail_name
  ++ "' is not currently available. Please try asking about a different place or check the official website for more information.".

Definition which_place_text : string :=
  "I'd be happy to provide information about a specific place! Please tell me which tourist attraction you'd like to know more about. For example: 'Tell me about Qutub Minar' or 'What is the Eiffel Tower?'".

Definition no_place_text : string :=
  "I couldn't find a valid place name in your query. Please provide a place name like:" ++ NL
  ++ "- 'Dubai'" ++ NL
  ++ "- 'Dubai temperature'" ++ NL
  ++ "- 'What's the weather in Paris?'" ++ NL
  ++ "- 'In Bangalore, what places can I visit?'" ++ NL
  ++ "- 'Show me places to visit in Tokyo'".

Definition unknown_place_text (place_name : string) : string :=
  "I don't know if '" ++ place_name
  ++ "' exists. Could you please provide a valid place name?".

Definition region_text (proper_place_name : string) : string :=
  "I found '" ++ proper_place_name
  ++ "', but it appears to be a country, state, or region rather than a specific city."
  ++ NL ++ NL
  ++ "Please specify a city within " ++ proper_place_name
  ++ " for more accurate weather and attraction information." ++ NL ++ NL
  ++ "For example:" ++ NL
  ++ "- If you meant Karnataka, try 'Bangalore' or 'Mysore'" ++ NL
  ++ "- If you meant California, try 'Los Angeles' or 'San Francisco'" ++ NL
  ++ "- If you meant India, try 'Mumbai' or 'Delhi'".

Definition region_no_places_text (proper_place_name : string) : string :=
  "I found '" ++ proper_place_name
  ++ "', but it appears to be a country, state, or region rather than a specific city."
  ++ NL ++ NL
  ++ "Please enter a city name instead. For example, if you're looking for places in "
  ++ proper_place_name ++ ", try:" ++ NL
  ++ "- 'Mumbai' or 'Delhi' (for India)" ++ NL
  ++ "- 'Kolkata' or 'Darjeeling' (for West Bengal)" ++ NL
  ++ "- 'Los Angeles' or 'San Francisco' (for California)".

Definition no_data_text (proper_place_name : string) : string :=
  "Sorry, detailed tourist attraction data is not currently available for "
  ++ proper_place_name
  ++ ". Please try searching for a nearby major city or a different location.".

Definition unable_text (proper_place_name : string) : string :=
  "Unable to fetch information for " ++ proper_place_name
  ++ ". Please try rephrasing your query.".

(** [a or b] on values that may be absent or empty *)
Definition first_truthy (a : option string) (b : string) : string :=
  match opt_truthy_s a with
  | Some s => s
  | None => b
  end.

(** The first comma-separated part that is not empty and all ASCII. *)
Fixpoint first_ascii_part (parts : list string) : option string :=
  match parts with
  | [] => None
  | part :: rest =>
      let part := strip part in
      if truthy part && negb (sany non_ascii part) then Some part
      else first_ascii_part rest
  end.

(** [\s*\([^)]+\)\s*$] *)
Definition paren_suffix : re :=
  seq [sp0; Lit "("; Rep false 1 c_not_rparen; Lit ")"; sp0; Eos].

(** The name used in the answer (lines "Get proper place name ..." to the
    fallback on [place_name.title()]). *)
Definition proper_name (place_name : string) (geocoding_info : Location) : string :=
  let proper_place_name :=
    first_truthy (loc_name_colon_en geocoding_info)
      (first_truthy (loc_name_en geocoding_info)
         (match loc_name geocoding_info with
          | Some n => n
          | None => place_name
          end)) in
  let proper_place_name :=
    if truthy proper_place_name && sany non_ascii proper_place_name then
      let display_name := get_str (loc_display_name geocoding_info) in
      if truthy display_name then
        match first_ascii_part (split "," display_name) with
        | Some part => part
        | None => proper_place_name
        end
      else proper_place_name
    else proper_place_name in
  let proper_place_name :=
    if truthy proper_place_name
    then strip (Re.sub false paren_suffix "" proper_place_name)
    else proper_place_name in
  if negb (truthy proper_place_name) || (py_len proper_place_name <? 2)%nat
  then title place_name
  else proper_place_name.

Definition region_keywords : list string :=
  ["state"; "province"; "region"; "country"; "republic"; "kingdom"].

Definition common_countries : list string :=
  ["india"; "nepal"; "china"; "usa"; "united states"; "uk"; "united kingdom"; "france";
   "germany"; "japan"; "australia"; "canada"; "brazil"; "russia"].

Definition common_states : list string :=
  ["west bengal"; "karnataka"; "maharashtra"; "tamil nadu"; "gujarat"; "rajasthan";
   "punjab"; "california"; "texas"; "new york"; "florida"].

(** Method 3's loop: is the first part that holds the name the part of
    index 0? *)
Fixpoint found_in_first (place_lower : string) (i : nat) (parts : list string) : bool :=
  match parts with
  | [] => false
  | part :: rest =>
      if contains place_lower (lower part) then (i =? 0)%nat
      else found_in_first place_lower (S i) rest
  end.

(** The re-check made when places were asked for and none was found. *)
Definition is_likely_region (proper_place_name : string) (geocoding_info : Location)
  : bool :=
  let importance := get_num (loc_importance geocoding_info) in
  let place_type := lower (get_str (loc_type geocoding_info)) in
  let place_class := lower (get_str (loc_class geocoding_info)) in
  let display_name := lower (get_str (loc_display_name geocoding_info)) in
  let place_lower := lower proper_place_name in
  let parts := split "," display_name in
  let first_part := lower (strip (hd EmptyString parts)) in
  let is_likely_region := false in
  (* Method 1 *)
  let is_likely_region :=
    if (place_class =? "boundary") && (place_type =? "administrative")
       && Qle_b (4 # 10) importance && (1 <? List.length parts)%nat
    then
      if negb (contains place_lower first_part) then true
      else if contains "city" first_part || contains "town" first_part then false
      else is_likely_region
    else is_likely_region in
  (* Method 2 *)
  let is_likely_region :=
    if negb is_likely_region && any_in region_keywords display_name
       && (1 <? List.length parts)%nat && negb (contains place_lower first_part)
    then
      if existsb (fun part => contains place_lower (lower part)
                              && any_in region_keywords (lower part)) (tl parts)
      then true else is_likely_region
    else is_likely_region in
  (* Method 3 *)
  let is_likely_region :=
    if negb is_likely_region && Qle_b (5 # 10) importance && (place_class =? "boundary")
       && negb (contains "city" display_name) && negb (contains "town" display_name)
       && (2 <=? List.length parts)%nat
    then
      if negb (found_in_first place_lower 0 parts) then true else is_likely_region
    else is_likely_region in
  (* very high importance *)
  let is_likely_region :=
    if negb is_likely_region && Qlt_b (7 # 10) importance
       && (place_class =? "boundary") && (place_type =? "administrative")
       && (2 <=? List.length parts)%nat
    then
      let last_part := lower (strip (last parts EmptyString)) in
      if contains place_lower last_part || Qlt_b (8 # 10) importance
      then true else is_likely_region
    else is_likely_region in
  (* common country and state names *)
  if mem place_lower common_countries || mem place_lower common_states
  then true else is_likely_region.

(** "Combine responses with consistent formatting" *)
Definition combine_responses (responses : list string) (proper_place_name : string)
  : string :=
  match responses with
  | [] => unable_text proper_place_name
  | [r0; r1] =>
      let weather_resp := if contains "currently" r0 then r0 else r1 in
      let places_resp := if contains "currently" r0 then r1 else r0 in
      if contains "currently" weather_resp && contains "places you can go" places_resp
      then
        let places_resp :=
          if startswith "In " places_resp then "in " ++ drop 3 places_resp
          else places_resp in
        weather_resp ++ ". And " ++ places_resp
      else join " " responses
  | _ => join " " responses
  end.

(** [process_query] once the place has been geocoded. *)
Definition answer_located (w : World) (user_input place_name : string)
    (geocoding_data : PlacesAgent.geocoding_data) : result string :=
  let (lat, lon) := PlacesAgent.coordinates geocoding_data in
  let geocoding_info := PlacesAgent.info geocoding_data in
  let proper_place_name := proper_name place_name geocoding_info in
  let is_state_or_region := check_if_state_or_region proper_place_name geocoding_info in
  if is_state_or_region then Ok (region_text proper_place_name)
  else
    let intent := determine_intent user_input in
    responses <-
      (if weather intent then
         match WeatherAgent.get_weather w lat lon with
         | Some weather_data =>
             weather_response <-
               WeatherAgent.format_weather_response (Some weather_data) proper_place_name ;;
             Ok [weather_response]
         | None => Ok []
         end
       else Ok []) ;;
    if places intent then
      match PlacesAgent.get_tourist_attractions w lat lon with
      | [] =>
          if is_likely_region proper_place_name geocoding_info || is_state_or_region
          then Ok (region_no_places_text proper_place_name)
          else Ok (no_data_text proper_place_name)
      | places =>
          let places_response :=
            PlacesAgent.format_places_response w places proper_place_name in
          Ok (combine_responses (responses ++ [places_response])%list proper_place_name)
      end
    else Ok (combine_responses responses proper_place_name).

Definition process_query (w : World) (user_input : string) : result string :=
  let user_input := strip user_input in
  if is_goodbye user_input then Ok farewell
  else if is_greeting user_input then Ok (greeting_text (now_hour w))
  else if (py_len user_input <? 3)%nat then Ok need_more_text
  else
    let intent_check := determine_intent user_input in
    if timing intent_check then Ok timing_text
    else if place_detail intent_check then
      match opt_truthy_s (extract_place_detail_query user_input) with
      | Some place_detail_name =>
          match place_details w place_detail_name with
          | Some details => Ok (PlacesAgent.format_place_details_response details)
          | None => Ok (no_details_text place_detail_name)
          end
      | None => Ok which_place_text
      end
    else
      match opt_truthy_s (extract_place_name user_input) with
      | None => Ok no_place_text
      | Some place_name =>
          match PlacesAgent.get_coordinates_with_details w place_name with
          | None => Ok (unknown_place_text place_name)
          | Some geocoding_data => answer_located w user_input place_name geocoding_data
          end
      end.

End TourismAgent.

(** ** app.py: the /api/query route *)

Module App.

(** What the route answers: the two fields of the JSON body and the HTTP
    status. *)
Record reply : Type := MkReply {
  response : string;
  success : bool;
  status : nat
}.

(** [str(e)] *)
Definition str_of_exn (e : exn) : string :=
  match e with
  | TypeError msg | OverflowError msg | ValueError msg => msg
  end.

(** What the route finds in the request, up to the call of the agent:
    [Fails msg] when something raises before that call, with [msg] the text
    of the exception ([request.get_json()] on a body that is missing, is
    not JSON or has another content type; the test ['query' not in data] on
    a value that is no container; [data['query'].strip()] on a value that
    is no text); [Missing] when the decoded value is falsy or has no
    "query"; [Query q] when "query" is the text [q]. *)
Inductive request : Type :=
| Fails (msg : string)
| Missing
| Query (query : string).

(** [process_query()] of app.py. *)
Definition process_query (w : World) (data : request) : reply :=
  match data with
  | Fails msg =>
      MkReply ("An error occurred while processing your query: " ++ msg) false 500
  | Missing => MkReply "Please provide a query in the request." false 400
  | Query query =>
      let user_query := strip query in
      if negb (truthy user_query) then MkReply "Query cannot be empty." false 400
      else
        match TourismAgent.process_query w user_query with
        | Ok response => MkReply response true 200
        | Raise e =>
            MkReply ("An error occurred while processing your query: " ++ str_of_exn e)
                    false 500
        end
  end.

End App.

(** ** Two runs against the same providers *)

(** The providers return the same data in both worlds. *)
Definition same_providers (w1 w2 : World) : Prop :=
  (forall q, nominatim w1 q = nominatim w2 q)
  /\ (forall lat lon, open_meteo w1 lat lon = open_meteo w2 lat lon)
  /\ (forall lat lon, overpass w1 lat lon = overpass w2 lat lon)
  /\ (forall name, place_details w1 name = place_details w2 name).

(** [random.choice] draws the same element in both worlds. *)
Definition same_draw (w1 w2 : World) : Prop :=
  forall l, PlacesAgent.choice w1 l = PlacesAgent.choice w2 l.

(** The representatives [_refine_places] has accepted, before the cut. *)
Definition accepted (places : list string) : list string :=
  fst (PlacesAgent.refine_loop places).


(** What the loop of [_refine_places] keeps true of [(refined,
    seen_places)]: every name recorded in [seen_places] is in [refined],
    under its normalised form. *)
Definition seen_ok (st : list string * PlacesAgent.dict) : Prop :=
  forall k v, In (k, v) (snd st) ->
              In v (fst st) /\ k = PlacesAgent._normalize_name v.

(** [l1] is [l2] with some elements left out, the others in their order. *)
Inductive subseq {A : Type} : list A -> list A -> Prop :=
| subseq_nil : subseq [] []
| subseq_skip (x : A) (l1 l2 : list A) : subseq l1 l2 -> subseq l1 (x :: l2)
| subseq_keep (x : A) (l1 l2 : list A) : subseq l1 l2 -> subseq (x :: l1) (x :: l2).


(** The world [w] with another Overpass, or another Open-Meteo. *)
Definition with_overpass (w : World)
    (o : Q -> Q -> http (option (list (option string)))) : World :=
  MkWorld (now_hour w) (random_index w) (nominatim w) (open_meteo w) o (place_details w).

Definition with_open_meteo (w : World)
    (m : Q -> Q -> http (option CurrentWeather)) : World :=
  MkWorld (now_hour w) (random_index w) (nominatim w) m (overpass w) (place_details w).

(** The lines [format_places_response] writes for the attractions. *)
Definition bullet_lines (places : list string) : string :=
  fold_right (fun place acc => "- " ++ place ++ NL ++ acc) "" places.

(** ** Concrete provider data used in the examples *)

Module Samples.

Definition paris : Location :=
  MkLocation (Some "city") (Some "place") (Some (9 # 10)%Q)
    (Some "Paris, Ile-de-France, Metropolitan France, France")
    (Some "Paris") None None
    (Some (Some (488566 # 10000)%Q)) (Some (Some (23522 # 10000)%Q)).

(** Spec section 8: type=administrative, class=boundary, importance=0.75,
    displayName="Karnataka, India". *)
Definition karnataka : Location :=
  MkLocation (Some "administrative") (Some "boundary") (Some (75 # 100)%Q)
    (Some "Karnataka, India") (Some "Karnataka") None None
    (Some (Some (15 # 1)%Q)) (Some (Some (76 # 1)%Q)).

(** Spec section 8: name="London", type=administrative, importance=0.9. *)
Definition london : Location :=
  MkLocation (Some "administrative") None (Some (9 # 10)%Q) None (Some "London")
    None None None None.

Definition paris_attractions : list (option string) :=
  [Some "Louvre"; Some "Tour Eiffel"; None; Some "Musée d'Orsay"].

(** Every provider answers; the weather has a temperature and a rain
    probability. *)
Definition sunny (hour index : nat) : World :=
  MkWorld hour index
    (fun _ => HttpOk [paris])
    (fun _ _ => HttpOk (Some (MkCurrent (Some (PNum (181 # 10)%Q)) (Some (PNum 20%Q)))))
    (fun _ _ => HttpOk (Some paris_attractions))
    (fun _ => None).

(** Open-Meteo answers with a "current" object that has no
    "temperature_2m". *)
Definition no_temperature : World :=
  MkWorld 9 0
    (fun _ => HttpOk [paris])
    (fun _ _ => HttpOk (Some (MkCurrent None (Some (PNum 20%Q)))))
    (fun _ _ => HttpOk (Some paris_attractions))
    (fun _ => None).

(** An administrative area that the state rule recognises. *)
Definition upper_region : Location :=
  MkLocation (Some "administrative") (Some "administrative") (Some (5 # 10)%Q)
    (Some "Oberland District, Bavaria") (Some "Bavaria") None None None None.

(** Nominatim finds an administrative area, then the city. *)
Definition two_found : World :=
  MkWorld 9 0 (fun _ => HttpOk [upper_region; paris])
    (fun _ _ => HttpError) (fun _ _ => HttpError) (fun _ => None).

(** Nominatim finds nothing. *)
Definition nowhere : World :=
  MkWorld 9 0 (fun _ => HttpOk []) (fun _ _ => HttpError) (fun _ _ => HttpError)
    (fun _ => None).

End Samples.

(** * Properties *)

(** ** Sanity checks of the primitives *)

Example strip_ex : strip "  Hello world  " = "Hello world".
Proof. reflexivity. Qed.
Example split_ws_ex : split_ws " a  bc d " = ["a"; "bc"; "d"].
Proof. reflexivity. Qed.
Example split_ex : split "," "a,b,,c" = ["a"; "b"; ""; "c"].
Proof. reflexivity. Qed.
Example split_ex2 : split "," "" = [""].
Proof. reflexivity. Qed.
Example title_ex : title "what's new york" = "What'S New York".
Proof. reflexivity. Qed.
Example find_ex : find_from "," "a,b,c" 2 = Some 3.
Proof. reflexivity. Qed.
Example endswith_ex : endswith " thanks" "paris thanks" = true.
Proof. reflexivity. Qed.
Example search_ex :
  search true (seq [Lit "weather"; sp1; lits ["in"; "at"; "for"]; sp1;
                    Grp alpha_space_lazy; alt [Lit "?"; Eos]])
         "What's the Weather in New York? ok"
  = Some (RMatch 11 31 "New York").
Proof. reflexivity. Qed.
Example sub_ex : sub false (seq [Rep false 1 c_punct; Eos]) "" "Paris?!" = "Paris".
Proof. reflexivity. Qed.
Example sub_ex2 : sub false sp1 " " "a  b
 c" = "a b c".
Proof. reflexivity. Qed.
Example round_ex : map py_round [(5#2)%Q; (7#2)%Q; (-5#2)%Q; (-1#3)%Q; (184#10)%Q]
  = [2; 4; -2; 0; 18]%Z.
Proof. reflexivity. Qed.
Example weather_ex :
  WeatherAgent.format_weather_response
    (Some (WeatherAgent.MkWeather (PNum (181#10)) (PNum (20#1)) true)) "Paris"
  = Ok "In Paris it's currently 18Â°C with a chance of 20% to rain.".
Proof. reflexivity. Qed.
Example normalize_ex : PlacesAgent._normalize_name "  The   Central Park " = "the central park".
Proof. reflexivity. Qed.
Example similar_ex : PlacesAgent._is_similar "Park" "Central Park" = true.
Proof. reflexivity. Qed.
Example similar_ex2 : PlacesAgent._is_similar "Eiffel Tower" "The Central Park" = false.
Proof. reflexivity. Qed.
Example refine_ex :
  PlacesAgent._refine_places ["Central Park"; "Park"; "The Central Park"; "Eiffel Tower"]
  = ["The Central Park"; "Eiffel Tower"].
Proof. reflexivity. Qed.
Example extract_ex1 : TourismAgent.extract_place_name "What's the weather in Bangalore?" = Some "Bangalore".
Proof. reflexivity. Qed.
Example extract_ex2 : TourismAgent.extract_place_name "In Tokyo, what places can I visit?" = Some "Tokyo".
Proof. reflexivity. Qed.
Example extract_ex3 : TourismAgent.extract_place_name "I'm going to go to Bangalore, let's plan my trip." = Some "Bangalore".
Proof. reflexivity. Qed.
Example extract_ex4 : TourismAgent.extract_place_name "dubai temperature" = Some "dubai".
Proof. reflexivity. Qed.
Example extract_ex5 : TourismAgent.extract_place_name "paris?" = Some "Paris".
Proof. reflexivity. Qed.
Example intent_ex : TourismAgent.determine_intent "where to travel"
  = TourismAgent.MkIntent false true false false.
Proof. reflexivity. Qed.
Example detail_ex : TourismAgent.extract_place_detail_query "Tell me about Qutub Minar please" = Some "Qutub Minar".
Proof. reflexivity. Qed.
Example goodbye_ex : TourismAgent.is_goodbye "what places can I visit in Paris thanks" = true.
Proof. reflexivity. Qed.
Example len_ex : map py_len ["Paris"; "Zé"; "東京 Zoo"; ""] = [5; 2; 6; 0].
Proof. reflexivity. Qed.
Example refine_ex2 : PlacesAgent._refine_places ["東京 Zoo"; "The Zoo"] = ["The Zoo"].
Proof. reflexivity. Qed.
Example short_ex :
  TourismAgent.process_query Samples.nowhere "Zé" = Ok TourismAgent.need_more_text.
Proof. reflexivity. Qed.
Example round_ex2 :
  map WeatherAgent.round [PBool true; PNum (5#2)%Q; PInf false; PNaN]
  = [Ok 1%Z; Ok 2%Z;
     Raise (OverflowError "cannot convert float infinity to integer");
     Raise (ValueError "cannot convert float NaN to integer")].
Proof. reflexivity. Qed.
Example route_ex :
  map (App.process_query Samples.nowhere) [App.Missing; App.Query "  "; App.Fails "boom"]
  = [App.MkReply "Please provide a query in the request." false 400;
     App.MkReply "Query cannot be empty." false 400;
     App.MkReply "An error occurred while processing your query: boom" false 500].
Proof. reflexivity. Qed.

(** ** Facts about the string primitives *)

Lemma append_assoc (a b c : string) : (a ++ b) ++ c = a ++ b ++ c.
Proof. induction a as [|x a IH]; simpl; [reflexivity | now rewrite IH]. Qed.

Lemma append_empty_r (a : string) : a ++ "" = a.
Proof. induction a as [|x a IH]; simpl; [reflexivity | now rewrite IH]. Qed.

Lemma startswith_app (p t : string) : startswith p (p ++ t) = true.
Proof.
  induction p as [|c p IH]; simpl; [reflexivity|].
  now rewrite Ascii.eqb_refl, IH.
Qed.

Lemma startswith_spec (p s : string) :
  startswith p s = true <-> exists t, s = p ++ t.
Proof.
  split.
  - revert s; induction p as [|c p IH]; intros s H.
    + now exists s.
    + destruct s as [|d s]; simpl in H; [discriminate|].
      apply andb_true_iff in H as [Hc Hp].
      apply Ascii.eqb_eq in Hc; subst d.
      destruct (IH _ Hp) as [t ->]. now exists t.
  - intros [t ->]. apply startswith_app.
Qed.

Lemma contains_of_startswith (sub s : string) :
  startswith sub s = true -> contains sub s = true.
Proof. intros H. destruct s; simpl; now rewrite H. Qed.

Lemma contains_spec (sub s : string) :
  contains sub s = true <-> exists a b, s = a ++ sub ++ b.
Proof.
  split.
  - induction s as [|c s IH]; simpl; intros H.
    + apply orb_true_iff in H as [H|H]; [|discriminate].
      apply startswith_spec in H as [t ->]. now exists "", t.
    + apply orb_true_iff in H as [H|H].
      * apply startswith_spec in H as [t ->]. now exists "", t.
      * destruct (IH H) as (a & b & ->). now exists (String c a), b.
  - intros (a & b & ->). induction a as [|c a IH]; simpl.
    + apply contains_of_startswith, startswith_app.
    + rewrite IH. apply orb_true_r.
Qed.

Lemma srev_onto_app (s acc : string) : srev_onto s acc = srev s ++ acc.
Proof.
  unfold srev. revert acc.
  induction s as [|c s IH]; intros acc; simpl; [reflexivity|].
  rewrite IH, (IH (String c "")), append_assoc. reflexivity.
Qed.

Lemma srev_app (a b : string) : srev (a ++ b) = srev b ++ srev a.
Proof.
  induction a as [|c a IH]; simpl.
  - now rewrite append_empty_r.
  - unfold srev in *; simpl.
    rewrite (srev_onto_app (a ++ b)), (srev_onto_app a).
    unfold srev. rewrite IH, append_assoc. reflexivity.
Qed.

Lemma endswith_app (p t : string) : endswith p (t ++ p) = true.
Proof. unfold endswith. rewrite srev_app. apply startswith_app. Qed.

Lemma is_space_lower_char (c : ascii) : is_space (lower_char c) = is_space c.
Proof. destruct c as [[] [] [] [] [] [] [] []]; reflexivity. Qed.

Lemma lstrip_lower (s : string) : lstrip (lower s) = lower (lstrip s).
Proof.
  induction s as [|c s IH]; simpl; [reflexivity|].
  rewrite is_space_lower_char. destruct (is_space c); [exact IH | reflexivity].
Qed.

Lemma rstrip_lower (s : string) : rstrip (lower s) = lower (rstrip s).
Proof.
  induction s as [|c s IH]; simpl; [reflexivity|].
  unfold lower in IH. rewrite IH, is_space_lower_char.
  destruct (rstrip s); simpl; [destruct (is_space c)|]; reflexivity.
Qed.

Lemma strip_lower (s : string) : strip (lower s) = lower (strip s).
Proof. unfold strip. now rewrite lstrip_lower, rstrip_lower. Qed.

Lemma rstrip_cons (c : ascii) (t : string) :
  rstrip (String c t) =
  match rstrip t with
  | "" => if is_space c then "" else String c ""
  | r => String c r
  end.
Proof. reflexivity. Qed.

Lemma rstrip_idem (s : string) : rstrip (rstrip s) = rstrip s.
Proof.
  induction s as [|c s IH]; [reflexivity|].
  rewrite (rstrip_cons c s).
  destruct (rstrip s) as [|d r] eqn:E.
  - destruct (is_space c) eqn:Ec; simpl; [reflexivity | now rewrite Ec].
  - rewrite rstrip_cons, IH. reflexivity.
Qed.

Lemma lstrip_head (s : string) :
  lstrip s = "" \/ exists c t, lstrip s = String c t /\ is_space c = false.
Proof.
  induction s as [|c s IH]; simpl; [now left|].
  destruct (is_space c) eqn:E; [exact IH|].
  right. now exists c, s.
Qed.

Lemma lstrip_rstrip_lstrip (s : string) : lstrip (rstrip (lstrip s)) = rstrip (lstrip s).
Proof.
  destruct (lstrip_head s) as [-> | (c & t & -> & Hc)]; [reflexivity|].
  rewrite rstrip_cons.
  destruct (rstrip t); rewrite ?Hc; simpl; rewrite ?Hc; reflexivity.
Qed.

Lemma strip_idem (s : string) : strip (strip s) = strip s.
Proof. unfold strip. now rewrite lstrip_rstrip_lstrip, rstrip_idem. Qed.

Lemma strip_lower_strip (s : string) : strip (lower (strip s)) = strip (lower s).
Proof. now rewrite <- strip_lower, strip_idem. Qed.

Lemma mem_In (x : string) (l : list string) : mem x l = true <-> In x l.
Proof.
  unfold mem. rewrite existsb_exists. split.
  - intros (y & Hy & E). apply String.eqb_eq in E. now subst.
  - intros H. exists x. split; [exact H | apply String.eqb_refl].
Qed.

Lemma any_in_false (keys : list string) (s : string) :
  any_in keys s = false <-> forall k, In k keys -> contains k s = false.
Proof.
  unfold any_in. induction keys as [|k keys IH]; simpl.
  - split; [intros _ k [] | reflexivity].
  - rewrite orb_false_iff, IH. split.
    + intros [H1 H2] k' [<-|H]; auto.
    + intros H. split; [apply H; now left | intros k' Hk; apply H; now right].
Qed.

Lemma contains_inner (a k b s : string) :
  contains (a ++ k ++ b) s = true -> contains k s = true.
Proof.
  intros H. apply contains_spec in H as (x & y & ->).
  apply contains_spec. exists (x ++ a), (b ++ y).
  now rewrite !append_assoc.
Qed.

Lemma existsb_In_true {A} (f : A -> bool) (l : list A) (x : A) :
  In x l -> f x = true -> existsb f l = true.
Proof. intros H1 H2. apply existsb_exists. now exists x. Qed.

(** ** The goodbye check *)

Import TourismAgent.

Lemma is_goodbye_intro (user_input phrase : string) :
  In phrase goodbye_phrases ->
  (strip (lower user_input) = phrase
   \/ (exists t, strip (lower user_input) = phrase ++ " " ++ t)
   \/ (exists t, strip (lower user_input) = t ++ " " ++ phrase)) ->
  is_goodbye user_input = true.
Proof.
  intros Hin H. unfold is_goodbye.
  apply (existsb_In_true _ _ phrase Hin).
  destruct H as [-> | [[t ->] | [t ->]]].
  - now rewrite String.eqb_refl.
  - rewrite <- append_assoc, startswith_app. apply orb_true_iff. left. apply orb_true_r.
  - rewrite endswith_app. apply orb_true_r.
Qed.

Lemma process_query_goodbye (w : World) (user_input : string) :
  is_goodbye (strip user_input) = true -> process_query w user_input = Ok farewell.
Proof. intros H. unfold process_query. now rewrite H. Qed.

(** C10.  Whatever else the query holds, an input whose trimmed, lower-cased
    form is a goodbye phrase, starts with one followed by a space, or ends
    with a space followed by one, gets the farewell text: the goodbye check
    is the first branch of [process_query] and looks at nothing else. *)
Theorem goodbye_wins (w : World) (user_input phrase : string) :
  In phrase goodbye_phrases ->
  (strip (lower user_input) = phrase
   \/ (exists t, strip (lower user_input) = phrase ++ " " ++ t)
   \/ (exists t, strip (lower user_input) = t ++ " " ++ phrase)) ->
  process_query w user_input = Ok farewell.
Proof.
  intros Hin H. apply process_query_goodbye.
  apply (is_goodbye_intro _ phrase Hin).
  unfold is_goodbye. rewrite strip_lower_strip. exact H.
Qed.

Lemma goodbye_wins_witness :
  In "thanks" goodbye_phrases
  /\ strip (lower "what places can I visit in Paris thanks")
     = "what places can i visit in paris" ++ " " ++ "thanks"
  /\ contains "places" (lower "what places can I visit in Paris thanks") = true
  /\ process_query (Samples.sunny 9 0) "what places can I visit in Paris thanks"
     = Ok farewell.
Proof.
  assert (Hin : In "thanks" goodbye_phrases) by (apply mem_In; reflexivity).
  split; [exact Hin|]. split; [reflexivity|]. split; [reflexivity|].
  apply (goodbye_wins _ _ "thanks" Hin).
  right; right. exists "what places can i visit in paris". reflexivity.
Defined.

(** ** The region / city classifier *)

(** [check_if_state_or_region] answers [true] through one of two rules
    only: the country rule or the state rule. *)
Lemma check_true_inv (place_name : string) (g : Location) :
  check_if_state_or_region place_name g = true ->
  (lower (get_str (loc_class g)) =? "boundary") = true
  /\ contains "country" (lower (get_str (loc_display_name g))) = true
  /\ Qlt_b (8 # 10) (get_num (loc_importance g)) = true
  \/
  (lower (get_str (loc_class g)) =? "administrative") = true
  /\ Qle_b (4 # 10) (get_num (loc_importance g)) = true
  /\ Qle_b (get_num (loc_importance g)) (7 # 10) = true.
Proof.
  unfold check_if_state_or_region.
  destruct (mem _ major_cities); [discriminate|].
  destruct (existsb _ [_; _]); [discriminate|].
  destruct (_ && contains (lower place_name) _); [discriminate|].
  destruct (existsb _ city_indicators); [discriminate|].
  match goal with |- context [if ?c then true else _] => destruct c eqn:Hcountry end.
  - intros _. left.
    repeat (apply andb_true_iff in Hcountry as [Hcountry ?]). auto.
  - match goal with |- context [if ?c then _ else false] => destruct c eqn:Hstate end;
      [|discriminate].
    apply andb_true_iff in Hstate as [_ Hclass].
    match goal with |- context [if ?c then _ else false] => destruct c eqn:Himp end;
      [|discriminate].
    apply andb_true_iff in Himp as [? ?]. intros _. right. auto.
Qed.

(** C8.  A name of the whitelist of major cities is a city whatever the
    geocoding result says: [check_if_state_or_region] returns [false] before
    it looks at the type, the class, the importance or the display name. *)
Theorem whitelist_is_city (place_name : string) (geocoding_result : Location) :
  In (strip (lower place_name)) major_cities ->
  check_if_state_or_region place_name geocoding_result = false.
Proof.
  intros H. apply mem_In in H.
  unfold check_if_state_or_region. now rewrite H.
Qed.

Lemma whitelist_is_city_witness :
  In (strip (lower "London")) major_cities
  /\ check_if_state_or_region "London" Samples.london = false.
Proof.
  assert (Hin : In (strip (lower "London")) major_cities) by (apply mem_In; reflexivity).
  split; [exact Hin | apply (whitelist_is_city "London" Samples.london Hin)].
Defined.

(** The classifier on the result of section 8 of the specification
    (type=administrative, class=boundary, importance=0.75,
    displayName="Karnataka, India"): not a region. *)
Lemma karnataka_counterexample :
  check_if_state_or_region "Karnataka" Samples.karnataka <> true.
Proof. vm_compute. discriminate. Qed.

(** C3, as the code has it.  A result of type "administrative" and class
    "boundary" whose display name is "Karnataka, India" is classified as a
    city, for every place name and importance: the display name does not
    say "country", and the state rule asks for the class "administrative". *)
Theorem karnataka_is_city (place_name : string) (g : Location) :
  loc_type g = Some "administrative" ->
  loc_class g = Some "boundary" ->
  loc_display_name g = Some "Karnataka, India" ->
  check_if_state_or_region place_name g = false.
Proof.
  intros Ht Hc Hd.
  destruct (check_if_state_or_region place_name g) eqn:E; [|reflexivity].
  apply check_true_inv in E. rewrite Hc, Hd in E.
  destruct E as [(_ & E & _) | (E & _)]; vm_compute in E; discriminate.
Qed.

Lemma karnataka_is_city_witness :
  loc_type Samples.karnataka = Some "administrative"
  /\ loc_class Samples.karnataka = Some "boundary"
  /\ loc_display_name Samples.karnataka = Some "Karnataka, India"
  /\ loc_importance Samples.karnataka = Some (75 # 100)%Q
  /\ check_if_state_or_region "Karnataka" Samples.karnataka = false.
Proof.
  do 4 (split; [reflexivity|]).
  apply (karnataka_is_city "Karnataka" Samples.karnataka); reflexivity.
Defined.

(** ** The intent classifier *)

Lemma contains_inner_false (a k b s : string) :
  contains k s = false -> contains (a ++ k ++ b) s = false.
Proof.
  intros H. destruct (contains (a ++ k ++ b) s) eqn:E; [|reflexivity].
  apply contains_inner in E. congruence.
Qed.

Lemma any_in_true (keys : list string) (s : string) :
  any_in keys s = true <-> exists k, In k keys /\ contains k s = true.
Proof. unfold any_in. apply existsb_exists. Qed.

(** With no places keyword in the query, the only phrase of
    [places_phrases] that can occur is "where to": every other one holds a
    places keyword. *)
Lemma places_phrases_where_to (u : string) :
  (forall k, In k places_keywords -> contains k u = false) ->
  any_in places_phrases u = contains "where to" u.
Proof.
  intros Hp.
  assert (Hplaces : contains "places" u = false) by (apply Hp; simpl; tauto).
  assert (Hattr : contains "attractions" u = false) by (apply Hp; simpl; tauto).
  assert (E1 : contains "what places" u = false)
    by exact (contains_inner_false "what " "places" "" u Hplaces).
  assert (E2 : contains "places to" u = false)
    by exact (contains_inner_false "" "places" " to" u Hplaces).
  assert (E3 : contains "places can" u = false)
    by exact (contains_inner_false "" "places" " can" u Hplaces).
  assert (E4 : contains "places i" u = false)
    by exact (contains_inner_false "" "places" " i" u Hplaces).
  unfold any_in, places_phrases. cbn [existsb].
  rewrite E1, E2, E3, E4, Hattr. cbn [orb]. now rewrite !orb_false_r.
Qed.

(** The query "where to travel" has no keyword of the three sets and holds
    the trip word "travel", yet its intent has weather=false: the phrase
    "where to" sets places before the default rule is reached. *)
Lemma where_to_travel_counterexample :
  ~ ((forall k, In k weather_keywords -> contains k (lower "where to travel") = false) ->
     (forall k, In k places_keywords -> contains k (lower "where to travel") = false) ->
     (forall k, In k place_detail_keywords -> contains k (lower "where to travel") = false) ->
     places (determine_intent "where to travel") = true
     /\ (weather (determine_intent "where to travel") = true <->
         exists k, In k trip_words /\ contains k (lower "where to travel") = true)).
Proof.
  intros H.
  destruct H as [_ [_ H]]; try (apply any_in_false; reflexivity).
  assert (E : weather (determine_intent "where to travel") = true).
  { apply H. exists "travel". split; [simpl; tauto | reflexivity]. }
  vm_compute in E. discriminate.
Qed.

(** C9, as the code has it.  When no keyword of the weather, places and
    place-detail sets occurs in the lower-cased query, the intent has
    places=true; and it has weather=true exactly when the query holds a
    trip-planning word and does not hold the phrase "where to" (which
    forces places and so skips the default rule). *)
Theorem default_intent (user_input : string) :
  (forall k, In k weather_keywords -> contains k (lower user_input) = false) ->
  (forall k, In k places_keywords -> contains k (lower user_input) = false) ->
  (forall k, In k place_detail_keywords -> contains k (lower user_input) = false) ->
  places (determine_intent user_input) = true
  /\ (weather (determine_intent user_input) = true <->
      (exists k, In k trip_words /\ contains k (lower user_input) = true)
      /\ contains "where to" (lower user_input) = false).
Proof.
  intros Hw Hp Hd.
  rewrite <- any_in_true.
  unfold determine_intent.
  set (u := lower user_input) in *.
  rewrite (places_phrases_where_to u Hp).
  apply any_in_false in Hw, Hp, Hd. rewrite Hw, Hp, Hd.
  destruct (contains "where to" u); cbn -[any_in contains split_ws Nat.leb].
  - split; [reflexivity|]. split; [discriminate | intros [_ H]; discriminate].
  - destruct (any_in trip_words u); cbn -[any_in contains split_ws Nat.leb].
    + repeat split; reflexivity.
    + destruct (_ <=? 3)%nat; cbn -[any_in contains split_ws];
        (split; [reflexivity|]; split; [discriminate | intros [H _]; discriminate]).
Qed.

Lemma default_intent_witness :
  places (determine_intent "Dubai trip") = true
  /\ (weather (determine_intent "Dubai trip") = true <->
      (exists k, In k trip_words /\ contains k (lower "Dubai trip") = true)
      /\ contains "where to" (lower "Dubai trip") = false).
Proof.
  apply (default_intent "Dubai trip"); apply any_in_false; reflexivity.
Defined.

(** ** Evaluation of the worked examples *)

(** C7.  On "What's the weather in Bangalore?" the first strategy matches:
    its pattern captures "Bangalore" between "weather in " and the question
    mark; the trimming of trailing connector words leaves this capture as
    it is; the capture is found again at index 22 of the lower-cased input
    and the slice of the original input there is "Bangalore"; so the first
    strategy, and with it [extract_place_name], returns "Bangalore".  Two
    neighbouring inputs show that the later steps do their work: on the
    lower-case input the result is the slice of the input, "bangalore", not
    its title-cased fallback; and on an input where the capture runs on to
    "Bangalore is it hot", the trimming cuts it back to "Bangalore". *)
Theorem extract_bangalore :
  Re.search true weather_in_re "What's the weather in Bangalore?"
  = Some (RMatch 11 32 "Bangalore")
  /\ Re.sub true
       (trailing ["and"; "what"; "where"; "how"; "is"; "the"; "like";
                  "can"; "i"; "visit"; "places"]) "" "Bangalore"
     = "Bangalore"
  /\ find (lower "Bangalore") (lower "What's the weather in Bangalore?") = Some 22
  /\ slice 22 (22 + String.length "Bangalore") "What's the weather in Bangalore?"
     = "Bangalore"
  /\ pattern1 "What's the weather in Bangalore?" = Some "Bangalore"
  /\ extract_place_name "What's the weather in Bangalore?" = Some "Bangalore"
  /\ pattern1 "what's the weather in bangalore?" = Some "bangalore"
  /\ title "bangalore" = "Bangalore"
  /\ Re.search true weather_in_re "What's the weather in Bangalore is it hot?"
     = Some (RMatch 11 42 "Bangalore is it hot")
  /\ Re.sub true
       (trailing ["and"; "what"; "where"; "how"; "is"; "the"; "like";
                  "can"; "i"; "visit"; "places"]) "" "Bangalore is it hot"
     = "Bangalore"
  /\ pattern1 "What's the weather in Bangalore is it hot?" = Some "Bangalore".
Proof. repeat split; vm_compute; reflexivity. Qed.

(** C4.  "Park" is similar to "Central Park" and is dropped, "The Central
    Park" is similar and longer and takes its place, "Eiffel Tower" is
    similar to none: the result is ["The Central Park"; "Eiffel Tower"]. *)
Theorem dedupe_example :
  PlacesAgent._is_similar "Park" "Central Park" = true
  /\ PlacesAgent._is_similar "The Central Park" "Central Park" = true
  /\ PlacesAgent._is_similar "Eiffel Tower" "The Central Park" = false
  /\ PlacesAgent._refine_places
       ["Central Park"; "Park"; "The Central Park"; "Eiffel Tower"]
     = ["The Central Park"; "Eiffel Tower"].
Proof. repeat split; vm_compute; reflexivity. Qed.

(** C1.  What the code does with a weather text and a places text: the
    places text of [format_places_response] never holds "places you can
    go", so the two are joined with one space, without ". And " and without
    lower-casing anything.  First on the texts of the specification's
    example, then on a whole query, for each of the five opening
    sentences. *)
Theorem combine_joins_with_space :
  combine_responses
    ["In Paris it's currently 18°C..."; "Here are some amazing places in Paris..."]
    "Paris"
  = "In Paris it's currently 18°C... Here are some amazing places in Paris..."
  /\ Forall
       (fun index =>
          let w := Samples.sunny 9 index in
          let weather_text := "In Paris it's currently 18Â°C with a chance of 20% to rain." in
          let places_text :=
            PlacesAgent.format_places_response w
              ["Louvre"; "Tour Eiffel"; "Musée d'Orsay"] "Paris" in
          contains "places you can go" places_text = false
          /\ process_query w "What's the weather in Paris and what places can I visit?"
             = Ok (weather_text ++ " " ++ places_text))
       [0; 1; 2; 3; 4].
Proof. split; [reflexivity|]. repeat constructor; vm_compute; reflexivity. Qed.

(** C2.  When Open-Meteo's "current" object has no "temperature_2m",
    [get_weather] stores the text "N/A" as the temperature and
    [format_weather_response] calls [round] on it: the [TypeError] leaves
    [process_query]. *)
Theorem missing_temperature_raises :
  WeatherAgent.get_weather Samples.no_temperature (488566 # 10000)%Q (23522 # 10000)%Q
  = Some (WeatherAgent.MkWeather (PStr "N/A") (PNum 20%Q) true)
  /\ process_query Samples.no_temperature "weather in Paris"
     = Raise (TypeError "type str doesn't define __round__ method").
Proof. split; vm_compute; reflexivity. Qed.

(** ** Order of the deduplicated list *)

Lemma fold_left_invariant {A B} (P : A -> Prop) (f : A -> B -> A) (l : list B) (a : A) :
  P a -> (forall a x, In x l -> P a -> P (f a x)) -> P (fold_left f l a).
Proof.
  revert a. induction l as [|x l IH]; intros a Ha Hstep; simpl; [exact Ha|].
  apply IH.
  - apply Hstep; [now left | exact Ha].
  - intros a' y Hy. apply Hstep. now right.
Qed.

Lemma In_firstn {A} (n : nat) (l : list A) (x : A) : In x (firstn n l) -> In x l.
Proof.
  revert l. induction n as [|n IH]; intros [|y l]; simpl; try tauto.
  intros [->|H]; [now left | right; auto].
Qed.

Lemma refine_loop_snoc (pre : list string) (place : string) :
  PlacesAgent.refine_loop (pre ++ [place])%list
  = PlacesAgent.refine_step (PlacesAgent.refine_loop pre) place.
Proof. unfold PlacesAgent.refine_loop. now rewrite fold_left_app. Qed.

Lemma refine_places_cut (places : list string) :
  PlacesAgent._refine_places places = firstn PlacesAgent.max_places (accepted places).
Proof. destruct places; reflexivity. Qed.

(** "Central Park" is accepted first, at index 0; the later and longer "The
    Central Park" replaces it, and lands behind "Eiffel Tower", not at
    index 0. *)
Lemma replacement_counterexample :
  PlacesAgent._refine_places ["Central Park"; "Eiffel Tower"]
  = ["Central Park"; "Eiffel Tower"]
  /\ PlacesAgent._is_similar "The Central Park" "Central Park" = true
  /\ PlacesAgent._refine_places ["Central Park"; "Eiffel Tower"; "The Central Park"]
     = ["Eiffel Tower"; "The Central Park"]
  /\ nth_error
       (PlacesAgent._refine_places ["Central Park"; "Eiffel Tower"; "The Central Park"]) 0
     <> Some "The Central Park".
Proof. repeat split; vm_compute; try reflexivity. discriminate. Qed.

Lemma subseq_refl {A} (l : list A) : subseq l l.
Proof. induction l; [apply subseq_nil | now apply subseq_keep]. Qed.

Lemma subseq_nil_l {A} (l : list A) : subseq [] l.
Proof. induction l; [apply subseq_nil | now apply subseq_skip]. Qed.

Lemma subseq_app_tail {A} (l1 l2 : list A) (x : A) :
  subseq l1 l2 -> subseq (l1 ++ [x])%list (l2 ++ [x])%list.
Proof.
  induction 1; simpl.
  - apply subseq_keep, subseq_nil.
  - now apply subseq_skip.
  - now apply subseq_keep.
Qed.

Lemma subseq_snoc {A} (l1 l2 : list A) (x : A) :
  subseq l1 l2 -> subseq l1 (l2 ++ [x])%list.
Proof.
  induction 1; simpl.
  - apply subseq_skip, subseq_nil.
  - now apply subseq_skip.
  - now apply subseq_keep.
Qed.

Lemma subseq_filter {A} (f : A -> bool) (l : list A) : subseq (filter f l) l.
Proof.
  induction l as [|x l IH]; simpl; [apply subseq_nil|].
  destruct (f x); [now apply subseq_keep | now apply subseq_skip].
Qed.

Lemma subseq_trans {A} (l1 l2 l3 : list A) :
  subseq l1 l2 -> subseq l2 l3 -> subseq l1 l3.
Proof.
  intros H12 H23. revert l1 H12.
  induction H23 as [|x l2 l3 H IH|x l2 l3 H IH]; intros l1 H12.
  - exact H12.
  - apply subseq_skip. now apply IH.
  - inversion H12; subst.
    + apply subseq_skip. now apply IH.
    + apply subseq_keep. now apply IH.
Qed.

Lemma subseq_firstn {A} (n : nat) (l : list A) : subseq (firstn n l) l.
Proof.
  revert l. induction n as [|n IH]; intros l; [apply subseq_nil_l|].
  destruct l as [|x l]; simpl; [apply subseq_nil|].
  apply subseq_keep, IH.
Qed.

Lemma dict_set_In (k0 v0 : string) (d : PlacesAgent.dict) (kv : string * string) :
  In kv (PlacesAgent.dict_set k0 v0 d) -> kv = (k0, v0) \/ In kv d.
Proof.
  induction d as [|[k' v'] d IH]; simpl.
  - intros [<-|[]]. now left.
  - destruct (k' =? k0); simpl.
    + intros [<-|H]; [now left | right; now right].
    + intros [<-|H]; [right; now left|].
      destruct (IH H) as [->|H']; [now left | right; now right].
Qed.

Lemma first_similar_Some (place : string) (seen_places : PlacesAgent.dict)
    (k r : string) :
  PlacesAgent.first_similar place seen_places = Some (k, r) ->
  In (k, r) seen_places /\ PlacesAgent._is_similar place r = true.
Proof. unfold PlacesAgent.first_similar. intros H. now apply find_some in H. Qed.

Lemma refine_step_seen_ok (st : list string * PlacesAgent.dict) (place : string) :
  seen_ok st -> seen_ok (PlacesAgent.refine_step st place).
Proof.
  destruct st as [refined seen_places]. unfold seen_ok, PlacesAgent.refine_step.
  cbn [fst snd]. intros Hok.
  destruct (PlacesAgent.first_similar place seen_places) as [[seen_norm seen_orig]|] eqn:E.
  - apply first_similar_Some in E as [Hin _].
    destruct (Hok _ _ Hin) as [_ Hnorm].
    destruct (py_len seen_orig <? py_len place)%nat; cbn [fst snd]; [|exact Hok].
    intros k v H. apply dict_set_In in H as [[= -> ->]|H].
    + split; [|reflexivity]. apply in_or_app. right. now left.
    + unfold PlacesAgent.dict_del in H. apply filter_In in H as [H Hk].
      cbn [fst] in Hk. destruct (Hok _ _ H) as [Hv Hkv]. split; [|exact Hkv].
      apply in_or_app. left. apply filter_In. split; [exact Hv|].
      apply negb_true_iff. apply String.eqb_neq. intros ->.
      apply negb_true_iff, String.eqb_neq in Hk. congruence.
  - cbn [fst snd]. intros k v H. apply dict_set_In in H as [[= -> ->]|H].
    + split; [|reflexivity]. apply in_or_app. right. now left.
    + destruct (Hok _ _ H) as [Hv Hkv]. split; [|exact Hkv].
      apply in_or_app. now left.
Qed.

Lemma refine_loop_seen_ok (places : list string) :
  seen_ok (PlacesAgent.refine_loop places).
Proof.
  unfold PlacesAgent.refine_loop. apply fold_left_invariant.
  - intros k v [].
  - intros st x _. apply refine_step_seen_ok.
Qed.

Lemma refine_step_subseq (st : list string * PlacesAgent.dict)
    (pre : list string) (place : string) :
  subseq (fst st) pre ->
  subseq (fst (PlacesAgent.refine_step st place)) (pre ++ [place])%list.
Proof.
  destruct st as [refined seen_places]. unfold PlacesAgent.refine_step. cbn [fst].
  intros H.
  destruct (PlacesAgent.first_similar place seen_places) as [[seen_norm seen_orig]|].
  - destruct (_ <? _)%nat; cbn [fst].
    + apply subseq_app_tail. eapply subseq_trans; [apply subseq_filter | exact H].
    + now apply subseq_snoc.
  - cbn [fst]. now apply subseq_app_tail.
Qed.

Lemma fold_refine_subseq (l : list string) :
  forall (st : list string * PlacesAgent.dict) (pre : list string),
    subseq (fst st) pre ->
    subseq (fst (fold_left PlacesAgent.refine_step l st)) (pre ++ l)%list.
Proof.
  induction l as [|x l IH]; intros st pre H; simpl.
  - now rewrite app_nil_r.
  - replace (pre ++ x :: l)%list with ((pre ++ [x]) ++ l)%list
      by (rewrite <- app_assoc; reflexivity).
    apply IH. now apply refine_step_subseq.
Qed.

(** C5, as the code has it.  The result has at most five names: the first
    five accepted representatives.  The names come out in the order in
    which they came in: the accepted list is the input with names left
    out.  Taking one more name [place] into account either puts [place] at
    the end of the accepted list; or changes nothing, [place] being similar
    to an accepted representative [r] that is at least as long; or removes
    an accepted representative [r] that is similar to [place] and shorter,
    and puts [place] at the end of the list, not where [r] was. *)
Theorem refine_places_order :
  (forall places,
      List.length (PlacesAgent._refine_places places) <= 5
      /\ PlacesAgent._refine_places places = firstn 5 (accepted places)
      /\ subseq (accepted places) places
      /\ subseq (PlacesAgent._refine_places places) places)
  /\ (forall pre place,
         accepted (pre ++ [place])%list = (accepted pre ++ [place])%list
         \/ (accepted (pre ++ [place])%list = accepted pre
             /\ exists r, In r (accepted pre)
                          /\ PlacesAgent._is_similar place r = true
                          /\ py_len place <= py_len r)
         \/ (exists r, In r (accepted pre)
                       /\ PlacesAgent._is_similar place r = true
                       /\ py_len r < py_len place
                       /\ accepted (pre ++ [place])%list
                          = (filter (fun p => negb (p =? r)) (accepted pre)
                             ++ [place])%list)).
Proof.
  split.
  - intros places.
    assert (Hsub : subseq (accepted places) places).
    { unfold accepted, PlacesAgent.refine_loop.
      apply (fold_refine_subseq places ([], []) []). apply subseq_nil. }
    rewrite refine_places_cut. repeat split.
    + apply firstn_le_length.
    + exact Hsub.
    + eapply subseq_trans; [apply subseq_firstn | exact Hsub].
  - intros pre place. unfold accepted. rewrite refine_loop_snoc.
    pose proof (refine_loop_seen_ok pre) as Hok.
    destruct (PlacesAgent.refine_loop pre) as [refined seen_places].
    unfold PlacesAgent.refine_step. cbn [fst snd] in *.
    destruct (PlacesAgent.first_similar place seen_places)
      as [[seen_norm seen_orig]|] eqn:E; [|now left].
    apply first_similar_Some in E as [Hin Hsim].
    destruct (Hok _ _ Hin) as [Hr _]. right.
    destruct (py_len seen_orig <? py_len place)%nat eqn:L; cbn [fst].
    + right. exists seen_orig. apply Nat.ltb_lt in L. auto.
    + left. split; [reflexivity|]. exists seen_orig.
      apply Nat.ltb_ge in L. auto.
Qed.

(** ** Two runs of [process_query] *)

Lemma same_coordinates (w1 w2 : World) (place_name : string) :
  same_providers w1 w2 ->
  PlacesAgent.get_coordinates_with_details w1 place_name
  = PlacesAgent.get_coordinates_with_details w2 place_name.
Proof.
  intros (H & _). unfold PlacesAgent.get_coordinates_with_details. now rewrite H.
Qed.

Lemma same_weather (w1 w2 : World) (lat lon : Q) :
  same_providers w1 w2 ->
  WeatherAgent.get_weather w1 lat lon = WeatherAgent.get_weather w2 lat lon.
Proof.
  intros (_ & H & _). unfold WeatherAgent.get_weather. now rewrite H.
Qed.

Lemma same_attractions (w1 w2 : World) (lat lon : Q) :
  same_providers w1 w2 ->
  PlacesAgent.get_tourist_attractions w1 lat lon
  = PlacesAgent.get_tourist_attractions w2 lat lon.
Proof.
  intros (_ & _ & H & _). unfold PlacesAgent.get_tourist_attractions. now rewrite H.
Qed.

Lemma same_places_text (w1 w2 : World) (places : list string) (place_name : string) :
  same_draw w1 w2 ->
  PlacesAgent.format_places_response w1 places place_name
  = PlacesAgent.format_places_response w2 places place_name.
Proof.
  intros H. unfold PlacesAgent.format_places_response.
  destruct places; [reflexivity|]. now rewrite H.
Qed.

Lemma same_answer_located (w1 w2 : World) (user_input place_name : string)
    (g : PlacesAgent.geocoding_data) :
  same_providers w1 w2 -> same_draw w1 w2 ->
  answer_located w1 user_input place_name g = answer_located w2 user_input place_name g.
Proof.
  intros Hp Hd. unfold answer_located.
  destruct (PlacesAgent.coordinates g) as [lat lon].
  rewrite (same_weather w1 w2 lat lon Hp), (same_attractions w1 w2 lat lon Hp).
  destruct (check_if_state_or_region _ _); [reflexivity|].
  destruct (weather _); destruct (WeatherAgent.get_weather w2 lat lon);
    cbn [bind]; try destruct (WeatherAgent.format_weather_response _ _);
    cbn [bind]; try reflexivity;
    destruct (places _); try reflexivity;
    destruct (PlacesAgent.get_tourist_attractions w2 lat lon); try reflexivity;
    now rewrite (same_places_text w1 w2 _ _ Hd).
Qed.

(** Same query, same hour, same provider data; the two runs draw different
    opening sentences and answer differently. *)
Lemma random_opening_counterexample :
  same_providers (Samples.sunny 9 0) (Samples.sunny 9 1)
  /\ now_hour (Samples.sunny 9 0) = now_hour (Samples.sunny 9 1)
  /\ is_greeting (strip "Paris") = false
  /\ process_query (Samples.sunny 9 0) "Paris" <> process_query (Samples.sunny 9 1) "Paris".
Proof.
  split; [repeat split|]. split; [reflexivity|]. split; [reflexivity|].
  vm_compute. discriminate.
Qed.

(** C6, as the code has it.  Two runs on the same input, with the providers
    returning the same data and [random.choice] drawing the same opening
    sentence for the places text, give the same response; when the input is
    a greeting this needs the two hours to fall in the same part of the
    day. *)
Theorem same_run_same_response (w1 w2 : World) (user_input : string) :
  same_providers w1 w2 ->
  same_draw w1 w2 ->
  (is_greeting (strip user_input) = true ->
   time_greeting (now_hour w1) = time_greeting (now_hour w2)) ->
  process_query w1 user_input = process_query w2 user_input.
Proof.
  intros Hp Hd Hg. unfold process_query.
  destruct (is_goodbye _); [reflexivity|].
  destruct (is_greeting _).
  - unfold greeting_text. now rewrite (Hg eq_refl).
  - destruct (_ <? 3)%nat; [reflexivity|].
    destruct (timing _); [reflexivity|].
    destruct (place_detail _).
    + destruct (opt_truthy_s _); [|reflexivity].
      destruct Hp as (_ & _ & _ & Hdet). now rewrite Hdet.
    + destruct (opt_truthy_s _) as [place_name|]; [|reflexivity].
      rewrite (same_coordinates w1 w2 place_name Hp).
      destruct (PlacesAgent.get_coordinates_with_details w2 place_name); [|reflexivity].
      apply same_answer_located; assumption.
Qed.

Lemma same_run_same_response_witness :
  same_providers (Samples.sunny 9 3) (Samples.sunny 15 3)
  /\ same_draw (Samples.sunny 9 3) (Samples.sunny 15 3)
  /\ process_query (Samples.sunny 9 3) "Paris" = process_query (Samples.sunny 15 3) "Paris".
Proof.
  assert (Hp : same_providers (Samples.sunny 9 3) (Samples.sunny 15 3))
    by (repeat split).
  assert (Hd : same_draw (Samples.sunny 9 3) (Samples.sunny 15 3))
    by (intros l; reflexivity).
  split; [exact Hp|]. split; [exact Hd|].
  apply (same_run_same_response _ _ "Paris" Hp Hd).
  intros H. vm_compute in H. discriminate H.
Defined.

(** ** Where [process_query] can raise, and what it returns otherwise *)

Lemma rstrip_all_space (s : string) : rstrip s = "" -> sall is_space s = true.
Proof.
  induction s as [|c s IH]; [reflexivity|].
  rewrite rstrip_cons. destruct (rstrip s) eqn:E; [|discriminate].
  destruct (is_space c) eqn:Ec; [|discriminate].
  intros _. simpl. now rewrite Ec, IH.
Qed.

Lemma strip_all_space (s : string) : strip s = "" -> sall is_space s = true.
Proof.
  unfold strip. intros H. apply rstrip_all_space in H.
  induction s as [|c s IH]; [reflexivity|].
  simpl in *. destruct (is_space c) eqn:Ec; [auto|].
  simpl in H. now rewrite Ec in H.
Qed.

Lemma sall_app (p : ascii -> bool) (a b : string) :
  sall p (a ++ b) = sall p a && sall p b.
Proof.
  induction a as [|c a IH]; simpl; [reflexivity|].
  now rewrite IH, andb_assoc.
Qed.

Lemma strip_nonempty (a : string) (c : ascii) (t : string) :
  is_space c = false -> strip (a ++ String c t) <> "".
Proof.
  intros Hc H. apply strip_all_space in H.
  rewrite sall_app in H. simpl in H. rewrite Hc in H.
  now rewrite andb_false_r in H.
Qed.

Lemma places_response_nonempty (w : World) (places : list string) (place_name : string) :
  PlacesAgent.format_places_response w places place_name <> "".
Proof.
  unfold PlacesAgent.format_places_response.
  destruct places as [|x places]; [simpl; discriminate|].
  rewrite <- append_assoc.
  match goal with
  | |- strip (?a ++ String ?c ?t) <> "" => apply (strip_nonempty a c t); reflexivity
  end.
Qed.

Lemma details_response_nonempty (details : PlaceDetails) :
  PlacesAgent.format_place_details_response details <> "".
Proof.
  unfold PlacesAgent.format_place_details_response.
  match goal with
  | |- strip ?r <> "" =>
      assert (H : exists t, r = String "*" t);
        [| destruct H as [t ->]; apply (strip_nonempty "" "*" t); reflexivity]
  end.
  destruct (opt_truthy_s (d_description details));
    destruct (truthy (d_display_name details));
    destruct (opt_truthy_s (d_opening_hours details));
    destruct (opt_truthy_s (d_fee details));
    destruct (opt_truthy_s (d_heritage details));
    destruct (opt_truthy_s (d_historic details));
    destruct (opt_truthy_s (d_website details));
    match goal with
    | |- exists t, (if ?c then _ else _) = _ => destruct c
    end; simpl; eexists; reflexivity.
Qed.



Lemma append_nonempty_r (a b : string) : b <> "" -> a ++ b <> "".
Proof. destruct a; simpl; [trivial | discriminate]. Qed.

Lemma combine_nonempty (responses : list string) (proper_place_name : string) :
  Forall (fun r => r <> "") responses ->
  combine_responses responses proper_place_name <> "".
Proof.
  intros H. unfold combine_responses.
  destruct responses as [|r0 [|r1 [|r2 rest]]].
  - simpl; discriminate.
  - simpl. now inversion H.
  - destruct (contains "currently" r0);
      match goal with |- (if ?c then _ else _) <> _ => destruct c end;
      cbn [join]; apply append_nonempty_r; simpl; discriminate.
  - cbn [join]. apply append_nonempty_r; simpl; discriminate.
Qed.


(** The join of C1 is out of reach of a places text without the marker. *)
Lemma combine_without_marker (r0 r1 proper_place_name : string) :
  contains "places you can go" r0 = false ->
  contains "places you can go" r1 = false ->
  combine_responses [r0; r1] proper_place_name = r0 ++ " " ++ r1.
Proof.
  intros H0 H1. unfold combine_responses.
  destruct (contains "currently" r0); rewrite ?H0, ?H1, ?andb_false_r; reflexivity.
Qed.

(** * Further properties of the agents *)

(** ** Deduplication of attraction names *)

Lemma refine_step_subset (st : list string * PlacesAgent.dict) (place y : string) :
  In y (fst (PlacesAgent.refine_step st place)) -> In y (fst st) \/ y = place.
Proof.
  destruct st as [refined seen_places]. unfold PlacesAgent.refine_step.
  destruct (PlacesAgent.first_similar place seen_places) as [[seen_norm seen_orig]|].
  - destruct (_ <? _)%nat; cbn [fst]; [|tauto].
    rewrite in_app_iff, filter_In. simpl. intuition.
  - cbn [fst]. rewrite in_app_iff. simpl. intuition.
Qed.

Lemma refine_places_incl (places : list string) (y : string) :
  In y (PlacesAgent._refine_places places) -> In y places.
Proof.
  rewrite refine_places_cut. intros H. apply In_firstn in H. revert y H.
  unfold accepted, PlacesAgent.refine_loop.
  apply (fold_left_invariant
           (fun st => forall y, In y (fst st) -> In y places)).
  - intros y [].
  - intros st x Hx Hst y Hy.
    destruct (refine_step_subset st x y Hy) as [H| ->]; auto.
Qed.

(** X1.  [_refine_places] invents nothing: every name it returns is one of
    the names it was given. *)
Theorem refine_places_subset (places : list string) (y : string) :
  In y (PlacesAgent._refine_places places) -> In y places.
Proof. apply refine_places_incl. Qed.

Lemma refine_places_subset_witness :
  In "The Central Park"
     (PlacesAgent._refine_places ["Central Park"; "Park"; "The Central Park"])
  /\ In "The Central Park" ["Central Park"; "Park"; "The Central Park"].
Proof.
  assert (H : In "The Central Park"
                 (PlacesAgent._refine_places ["Central Park"; "Park"; "The Central Park"]))
    by (vm_compute; tauto).
  split; [exact H | exact (refine_places_subset _ _ H)].
Defined.

Lemma refine_step_length (st : list string * PlacesAgent.dict) (place : string) :
  List.length (fst (PlacesAgent.refine_step st place)) <= S (List.length (fst st)).
Proof.
  destruct st as [refined seen_places]. unfold PlacesAgent.refine_step.
  destruct (PlacesAgent.first_similar place seen_places) as [[seen_norm seen_orig]|].
  - destruct (_ <? _)%nat; cbn [fst]; [|lia].
    rewrite length_app. simpl.
    pose proof (filter_length_le (fun p => negb (p =? seen_orig)) refined). lia.
  - cbn [fst]. rewrite length_app. simpl. lia.
Qed.

Lemma refine_step_nonempty (st : list string * PlacesAgent.dict) (place : string) :
  fst st <> [] -> fst (PlacesAgent.refine_step st place) <> [].
Proof.
  destruct st as [refined seen_places]. unfold PlacesAgent.refine_step. cbn [fst].
  intros H.
  destruct (PlacesAgent.first_similar place seen_places) as [[seen_norm seen_orig]|];
    [destruct (_ <? _)%nat|]; cbn [fst]; try exact H;
    intros E; apply app_eq_nil in E as [_ E]; discriminate.
Qed.

Lemma fold_refine_length (l : list string) (st : list string * PlacesAgent.dict) :
  List.length (fst (fold_left PlacesAgent.refine_step l st))
  <= List.length l + List.length (fst st).
Proof.
  revert st. induction l as [|x l IH]; intros st; simpl; [lia|].
  specialize (IH (PlacesAgent.refine_step st x)).
  pose proof (refine_step_length st x). lia.
Qed.

(** X2.  Given at least one name, [_refine_places] returns at least one
    name and never more names than it was given. *)
Theorem refine_places_size (p : string) (rest : list string) :
  1 <= List.length (PlacesAgent._refine_places (p :: rest)) <= S (List.length rest).
Proof.
  rewrite refine_places_cut. split.
  - unfold accepted, PlacesAgent.refine_loop. simpl fold_left.
    assert (H : fst (fold_left PlacesAgent.refine_step rest
                       (PlacesAgent.refine_step ([], []) p)) <> []).
    { apply (fold_left_invariant (fun st => fst st <> [])).
      - cbn. discriminate.
      - intros st x _. apply refine_step_nonempty. }
    destruct (fst _); [congruence | simpl; lia].
  - rewrite length_firstn.
    etransitivity; [apply Nat.le_min_r|].
    unfold accepted, PlacesAgent.refine_loop.
    pose proof (fold_refine_length (p :: rest) ([], [])) as H.
    cbn [fst List.length] in H. now rewrite Nat.add_0_r in H.
Qed.

Lemma lower_char_idem (c : ascii) : lower_char (lower_char c) = lower_char c.
Proof. destruct c as [[] [] [] [] [] [] [] []]; reflexivity. Qed.

Lemma lower_idem (s : string) : lower (lower s) = lower s.
Proof.
  induction s as [|c s IH]; [reflexivity|].
  unfold lower in *. cbn [smap]. now rewrite lower_char_idem, IH.
Qed.

Lemma normalize_lower (name : string) :
  PlacesAgent._normalize_name (lower name) = PlacesAgent._normalize_name name.
Proof.
  unfold PlacesAgent._normalize_name.
  now rewrite strip_lower, lower_idem.
Qed.

Lemma normalize_strip (name : string) :
  PlacesAgent._normalize_name (strip name) = PlacesAgent._normalize_name name.
Proof. unfold PlacesAgent._normalize_name. now rewrite strip_idem. Qed.

Lemma similar_of_normalize (a b : string) :
  PlacesAgent._normalize_name a = PlacesAgent._normalize_name b ->
  PlacesAgent._is_similar a b = true.
Proof.
  intros H. unfold PlacesAgent._is_similar. now rewrite H, String.eqb_refl.
Qed.

(** X3.  A name is similar to itself, to its lower-cased form and to its
    trimmed form, in either order: [_is_similar] does not see case or
    surrounding white space. *)
Theorem similar_up_to_case_and_trim (name : string) :
  PlacesAgent._is_similar name name = true
  /\ PlacesAgent._is_similar (lower name) name = true
  /\ PlacesAgent._is_similar name (lower name) = true
  /\ PlacesAgent._is_similar (strip name) name = true
  /\ PlacesAgent._is_similar name (strip name) = true.
Proof.
  repeat split; apply similar_of_normalize;
    rewrite ?normalize_lower, ?normalize_strip; reflexivity.
Qed.

Lemma strip_truthy_nonempty (s : string) : truthy s = true -> s <> "".
Proof. destruct s; [discriminate | discriminate]. Qed.

(** X4.  Whatever Overpass answers, [get_tourist_attractions] returns at
    most five names, each of them non-empty and trimmed. *)
Theorem attractions_clean (w : World) (lat lon : Q) :
  List.length (PlacesAgent.get_tourist_attractions w lat lon) <= 5
  /\ Forall (fun name => name <> "" /\ strip name = name)
            (PlacesAgent.get_tourist_attractions w lat lon).
Proof.
  unfold PlacesAgent.get_tourist_attractions.
  destruct (overpass w lat lon) as [|elements].
  - split; [simpl; lia | constructor].
  - split; [apply firstn_le_length|].
    apply Forall_forall. intros name H.
    apply In_firstn, refine_places_incl, in_flat_map in H.
    destruct H as ([n|] & _ & H); [|destruct H].
    destruct (truthy n && truthy (strip n)) eqn:E; [|destruct H].
    destruct H as [<-|[]]. apply andb_true_iff in E as [_ E].
    split; [now apply strip_truthy_nonempty | apply strip_idem].
Qed.

(** ** Selection of the geocoding candidate *)

Lemma Qlt_b_true (a b : Q) : Qlt_b a b = true -> (a < b)%Q.
Proof.
  unfold Qlt_b. intros H. apply negb_true_iff in H.
  apply Qnot_le_lt. intros Hle. apply Qle_bool_iff in Hle. congruence.
Qed.

Lemma Qlt_b_false (a b : Q) : Qlt_b a b = false -> (b <= a)%Q.
Proof.
  unfold Qlt_b. intros H. apply negb_false_iff in H. now apply Qle_bool_iff.
Qed.

Lemma best_match_In (place_lower : string) (data : list Location) :
  forall (best : option Location) (best_score : Q) (l : Location),
    PlacesAgent.best_match place_lower data best best_score = Some l ->
    best = Some l \/ In l data.
Proof.
  induction data as [|x data IH]; intros best best_score l; cbn [PlacesAgent.best_match].
  - now left.
  - destruct (Qlt_b best_score (PlacesAgent.score place_lower x)); intros H;
      apply IH in H as [H|H].
    + injection H as <-. right. now left.
    + right. now right.
    + now left.
    + right. now right.
Qed.

Lemma english_name_keeps (l : Location) :
  loc_type (PlacesAgent.english_name l) = loc_type l
  /\ loc_class (PlacesAgent.english_name l) = loc_class l
  /\ loc_importance (PlacesAgent.english_name l) = loc_importance l
  /\ loc_display_name (PlacesAgent.english_name l) = loc_display_name l.
Proof.
  unfold PlacesAgent.english_name.
  repeat match goal with
         | |- context [match ?x with _ => _ end] => destruct x
         end; repeat split; reflexivity.
Qed.

(** The loop of [get_coordinates_with_details]: either no candidate beats
    the running best, or the result is a candidate that does and that no
    other candidate beats. *)
Lemma best_match_max (place_lower : string) (data : list Location) :
  forall (best : option Location) (best_score : Q),
    (PlacesAgent.best_match place_lower data best best_score = best
     /\ forall l, In l data -> (PlacesAgent.score place_lower l <= best_score)%Q)
    \/ exists l,
        In l data
        /\ PlacesAgent.best_match place_lower data best best_score = Some l
        /\ (best_score < PlacesAgent.score place_lower l)%Q
        /\ (forall l', In l' data ->
                       (PlacesAgent.score place_lower l'
                        <= PlacesAgent.score place_lower l)%Q).
Proof.
  induction data as [|x data IH]; intros best best_score.
  - left. split; [reflexivity | intros l []].
  - cbn [PlacesAgent.best_match].
    destruct (Qlt_b best_score (PlacesAgent.score place_lower x)) eqn:E.
    + apply Qlt_b_true in E.
      destruct (IH (Some x) (PlacesAgent.score place_lower x))
        as [[Hr Hle] | (l & Hin & Hr & Hlt & Hmax)].
      * right. exists x. split; [now left|]. split; [exact Hr|]. split; [exact E|].
        intros l' [<-|H]; [apply Qle_refl | now apply Hle].
      * right. exists l. split; [now right|]. split; [exact Hr|].
        split; [eapply Qlt_trans; eassumption|].
        intros l' [<-|H]; [now apply Qlt_le_weak | now apply Hmax].
    + apply Qlt_b_false in E.
      destruct (IH best best_score)
        as [[Hr Hle] | (l & Hin & Hr & Hlt & Hmax)].
      * left. split; [exact Hr|]. intros l [<-|H]; auto.
      * right. exists l. split; [now right|]. split; [exact Hr|].
        split; [exact Hlt|].
        intros l' [<-|H]; [|now apply Hmax].
        apply Qlt_le_weak. eapply Qle_lt_trans; eassumption.
Qed.

Lemma score_nonneg (place_lower : string) (location : Location) :
  (0 <= get_num (loc_importance location))%Q ->
  (0 <= PlacesAgent.score place_lower location)%Q.
Proof.
  intros H0. unfold PlacesAgent.score.
  set (imp := get_num (loc_importance location)) in *.
  repeat match goal with
         | |- context [if ?c then _ else _] => destruct c
         end; lra.
Qed.

(** X5.  What [get_coordinates_with_details] returns comes from one of the
    candidates Nominatim sent: the coordinates are that candidate's, and so
    are the type, the class, the importance and the display name; only the
    name may have been replaced.  And the selection is by score: when the
    importances are between 0 and 1, as Nominatim gives them, no candidate
    has a score that exceeds the score of the selected one by a billionth
    (the scores being sums of at most three terms in floating point, a tie
    of the exact scores can go either way). *)
Theorem picks_a_candidate (w : World) (place_name : string)
    (g : PlacesAgent.geocoding_data) :
  PlacesAgent.get_coordinates_with_details w place_name = Some g ->
  exists data l,
    nominatim w place_name = HttpOk data /\ In l data
    /\ PlacesAgent.to_float (loc_lat l) = Some (fst (PlacesAgent.coordinates g))
    /\ PlacesAgent.to_float (loc_lon l) = Some (snd (PlacesAgent.coordinates g))
    /\ loc_type (PlacesAgent.info g) = loc_type l
    /\ loc_class (PlacesAgent.info g) = loc_class l
    /\ loc_importance (PlacesAgent.info g) = loc_importance l
    /\ loc_display_name (PlacesAgent.info g) = loc_display_name l
    /\ ((forall l', In l' data ->
                    (0 <= get_num (loc_importance l'))%Q
                    /\ (get_num (loc_importance l') <= 1)%Q) ->
        forall l', In l' data ->
                   (PlacesAgent.score (strip (lower place_name)) l'
                    <= PlacesAgent.score (strip (lower place_name)) l
                       + (1 # 1000000000))%Q).
Proof.
  unfold PlacesAgent.get_coordinates_with_details.
  destruct (nominatim w place_name) as [|[|first others]]; try discriminate.
  cbv zeta.
  set (place_lower := strip (lower place_name)).
  set (data := (first :: others)%list).
  set (chosen := match PlacesAgent.best_match _ _ _ _ with
                 | Some l => l
                 | None => first
                 end).
  assert (Hin : In chosen data).
  { unfold chosen.
    destruct (PlacesAgent.best_match _ _ _ _) as [l|] eqn:E; [|now left].
    apply best_match_In in E as [E|E]; [discriminate | exact E]. }
  destruct (PlacesAgent.to_float (loc_lat chosen)) as [lat|] eqn:Elat; [|discriminate].
  destruct (PlacesAgent.to_float (loc_lon chosen)) as [lon|] eqn:Elon; [|discriminate].
  intros [= <-]. exists data, chosen. cbn [PlacesAgent.coordinates PlacesAgent.info fst snd].
  pose proof (english_name_keeps chosen) as (H1 & H2 & H3 & H4).
  do 8 (split; [reflexivity || assumption|]).
  intros Himp l' Hl'.
  assert (Hmax : (PlacesAgent.score place_lower l'
                  <= PlacesAgent.score place_lower chosen)%Q).
  { unfold chosen.
    destruct (best_match_max place_lower data None (-1)%Q)
      as [[_ Hle] | (l & _ & -> & _ & Hmax)].
    - assert (Hfirst : In first data) by now left.
      pose proof (Hle _ Hfirst) as Hneg.
      pose proof (score_nonneg place_lower first (proj1 (Himp _ Hfirst))) as Hpos.
      lra.
    - now apply Hmax. }
  lra.
Qed.

Lemma picks_a_candidate_witness :
  PlacesAgent.get_coordinates_with_details Samples.two_found "Paris"
  = Some (PlacesAgent.MkGeo ((488566 # 10000)%Q, (23522 # 10000)%Q) Samples.paris)
  /\ exists data l,
      nominatim Samples.two_found "Paris" = HttpOk data /\ In l data
      /\ PlacesAgent.to_float (loc_lat l) = Some (488566 # 10000)%Q
      /\ PlacesAgent.to_float (loc_lon l) = Some (23522 # 10000)%Q
      /\ loc_type Samples.paris = loc_type l
      /\ loc_class Samples.paris = loc_class l
      /\ loc_importance Samples.paris = loc_importance l
      /\ loc_display_name Samples.paris = loc_display_name l
      /\ ((forall l', In l' data ->
                      (0 <= get_num (loc_importance l'))%Q
                      /\ (get_num (loc_importance l') <= 1)%Q) ->
          forall l', In l' data ->
                     (PlacesAgent.score (strip (lower "Paris")) l'
                      <= PlacesAgent.score (strip (lower "Paris")) l
                         + (1 # 1000000000))%Q).
Proof.
  assert (H : PlacesAgent.get_coordinates_with_details Samples.two_found "Paris"
              = Some (PlacesAgent.MkGeo ((488566 # 10000)%Q, (23522 # 10000)%Q)
                                        Samples.paris))
    by (vm_compute; reflexivity).
  split; [exact H|].
  exact (picks_a_candidate Samples.two_found "Paris" _ H).
Defined.

(** X6.  With an importance between 0 and 1, as Nominatim gives it, the
    score of a candidate lies between 0 and 125; so the fallback on the
    first candidate is never needed. *)
Theorem score_bounds (place_lower : string) (location : Location) :
  (0 <= get_num (loc_importance location))%Q ->
  (get_num (loc_importance location) <= 1)%Q ->
  (0 <= PlacesAgent.score place_lower location)%Q
  /\ (PlacesAgent.score place_lower location <= 125)%Q.
Proof.
  intros H0 H1. unfold PlacesAgent.score.
  set (imp := get_num (loc_importance location)) in *.
  repeat match goal with
         | |- context [if ?c then _ else _] => destruct c
         end; split; lra.
Qed.

Lemma score_bounds_witness :
  (0 <= get_num (loc_importance Samples.paris))%Q
  /\ (get_num (loc_importance Samples.paris) <= 1)%Q
  /\ (0 <= PlacesAgent.score "paris" Samples.paris)%Q
  /\ (PlacesAgent.score "paris" Samples.paris <= 125)%Q.
Proof.
  assert (H0 : (0 <= get_num (loc_importance Samples.paris))%Q)
    by (vm_compute; discriminate).
  assert (H1 : (get_num (loc_importance Samples.paris) <= 1)%Q)
    by (vm_compute; discriminate).
  split; [exact H0|]. split; [exact H1|].
  exact (score_bounds "paris" Samples.paris H0 H1).
Defined.

(** X7.  [get_coordinates_with_details] gives nothing when the Nominatim
    request fails or finds no candidate; when it gives nothing although
    there are candidates, the coordinates of one of them could not be read
    as numbers.  [get_coordinates] gives nothing in the same cases, and
    otherwise the coordinates of the details. *)
Theorem coordinates_none_cases (w : World) (place_name : string) :
  (nominatim w place_name = HttpError \/ nominatim w place_name = HttpOk [] ->
   PlacesAgent.get_coordinates_with_details w place_name = None)
  /\ (PlacesAgent.get_coordinates_with_details w place_name = None ->
      nominatim w place_name = HttpError \/ nominatim w place_name = HttpOk []
      \/ exists data l,
           nominatim w place_name = HttpOk data /\ In l data
           /\ (loc_lat l = Some None \/ loc_lon l = Some None))
  /\ (PlacesAgent.get_coordinates w place_name = None
      <-> PlacesAgent.get_coordinates_with_details w place_name = None)
  /\ (forall g, PlacesAgent.get_coordinates_with_details w place_name = Some g ->
                PlacesAgent.get_coordinates w place_name
                = Some (PlacesAgent.coordinates g)).
Proof.
  unfold PlacesAgent.get_coordinates, PlacesAgent.get_coordinates_with_details.
  destruct (nominatim w place_name) as [|[|first others]].
  - repeat split; auto; intros; discriminate.
  - repeat split; auto; intros; discriminate.
  - cbv zeta.
    set (chosen := match PlacesAgent.best_match _ _ _ _ with
                   | Some l => l
                   | None => first
                   end).
    assert (Hin : In chosen (first :: others)).
    { unfold chosen.
      destruct (PlacesAgent.best_match _ _ _ _) as [l|] eqn:E; [|now left].
      apply best_match_In in E as [E|E]; [discriminate | exact E]. }
    split; [intros [H|H]; discriminate|].
    split.
    + intros H. right. right. exists (first :: others), chosen.
      split; [reflexivity|]. split; [exact Hin|].
      unfold PlacesAgent.to_float in H.
      destruct (loc_lat chosen) as [[lat|]|]; [| now left |];
        (destruct (loc_lon chosen) as [[lon|]|]; [discriminate | now right | discriminate]).
    + destruct (PlacesAgent.to_float (loc_lat chosen)), (PlacesAgent.to_float (loc_lon chosen));
        (split; [split; intros; (discriminate || reflexivity)|]);
        intros g H; try discriminate; now injection H as <-.
Qed.

(** ** The texts of the places agent *)

Lemma rstrip_app (a b : string) :
  rstrip (a ++ b) = match rstrip b with "" => rstrip a | r => a ++ r end.
Proof.
  induction a as [|c a IH].
  - simpl. now destruct (rstrip b).
  - change (String c a ++ b) with (String c (a ++ b)).
    rewrite rstrip_cons, IH.
    destruct (rstrip b) as [|d r].
    + now rewrite rstrip_cons.
    + destruct a; reflexivity.
Qed.

Lemma lstrip_app_keep (a x : string) (c : ascii) :
  is_space c = false -> exists a', lstrip (a ++ String c x) = a' ++ String c x.
Proof.
  intros Hc. induction a as [|d a [a' IH]].
  - exists "". simpl. now rewrite Hc.
  - simpl. destruct (is_space d).
    + now exists a'.
    + now exists (String d a).
Qed.

(** A piece of text that begins with a visible character and is followed
    by a visible character somewhere survives [strip]. *)
Lemma contains_strip (a x b : string) (c : ascii) :
  is_space c = false -> rstrip b <> "" ->
  contains (String c x) (strip (a ++ String c x ++ b)) = true.
Proof.
  intros Hc Hb. unfold strip.
  change (String c x ++ b) with (String c (x ++ b)).
  destruct (lstrip_app_keep a (x ++ b) c Hc) as [a' ->].
  change (String c (x ++ b)) with (String c x ++ b).
  rewrite <- append_assoc, rstrip_app.
  destruct (rstrip b) as [|d r]; [congruence|].
  apply contains_spec. exists a', (String d r). now rewrite append_assoc.
Qed.

Lemma fold_bullets (places : list string) (acc : string) :
  fold_left (fun acc place => acc ++ "- " ++ place ++ NL) places acc
  = acc ++ bullet_lines places.
Proof.
  revert acc. induction places as [|p places IH]; intros acc;
    unfold bullet_lines; cbn [fold_left fold_right].
  - now rewrite append_empty_r.
  - rewrite IH. unfold bullet_lines. now rewrite !append_assoc.
Qed.

Lemma bullet_lines_In (places : list string) (p : string) :
  In p places ->
  exists l1 l2, bullet_lines places = l1 ++ ("- " ++ p) ++ NL ++ l2.
Proof.
  induction places as [|q places IH]; [intros []|].
  intros [->|H].
  - exists "", (bullet_lines places). unfold bullet_lines. cbn [fold_right].
    now rewrite !append_assoc.
  - destruct (IH H) as (l1 & l2 & E).
    exists ("- " ++ q ++ NL ++ l1), l2.
    unfold bullet_lines in *. cbn [fold_right]. rewrite E.
    now rewrite !append_assoc.
Qed.

(** X8.  The places text lists every attraction it is given: each name
    occurs in it behind a dash. *)
Theorem places_text_lists_all (w : World) (places : list string)
    (place_name p : string) :
  In p places ->
  contains ("- " ++ p) (PlacesAgent.format_places_response w places place_name) = true.
Proof.
  intros Hin. unfold PlacesAgent.format_places_response.
  destruct places as [|q places']; [destruct Hin|].
  rewrite fold_bullets.
  destruct (bullet_lines_In _ p Hin) as (l1 & l2 & ->).
  set (tip := NL ++ "💡 Tip: Click on any place to learn more about it!").
  set (g := PlacesAgent.choice w (PlacesAgent.greetings place_name) ++ NL ++ NL).
  replace ((g ++ l1 ++ ("- " ++ p) ++ NL ++ l2) ++ tip)
    with ((g ++ l1) ++ String "-" (String " " p) ++ (NL ++ l2 ++ tip))
    by (rewrite !append_assoc; reflexivity).
  apply contains_strip; [reflexivity|].
  rewrite rstrip_app. rewrite (rstrip_app l2 tip).
  replace (rstrip tip) with tip by reflexivity.
  unfold tip. destruct l2; simpl; discriminate.
Qed.

Lemma places_text_lists_all_witness :
  In "Louvre" ["Louvre"; "Tour Eiffel"]
  /\ contains "- Louvre"
       (PlacesAgent.format_places_response (Samples.sunny 9 2)
          ["Louvre"; "Tour Eiffel"] "Paris") = true.
Proof.
  assert (H : In "Louvre" ["Louvre"; "Tour Eiffel"]) by (simpl; tauto).
  split; [exact H|].
  exact (places_text_lists_all (Samples.sunny 9 2) _ "Paris" "Louvre" H).
Defined.

Lemma details_response_shape (details : PlaceDetails) :
  exists rest,
    PlacesAgent.format_place_details_response details
    = strip (("**" ++ d_name details ++ "**") ++ rest).
Proof.
  unfold PlacesAgent.format_place_details_response.
  destruct (opt_truthy_s (d_description details));
    destruct (truthy (d_display_name details));
    destruct (opt_truthy_s (d_opening_hours details));
    destruct (opt_truthy_s (d_fee details));
    destruct (opt_truthy_s (d_heritage details));
    destruct (opt_truthy_s (d_historic details));
    destruct (opt_truthy_s (d_website details));
    match goal with
    | |- exists rest, strip (if ?c then _ else _) = _ => destruct c
    end; eexists; rewrite !append_assoc; reflexivity.
Qed.

(** X9.  The text about a place always opens with the name of the place
    between two pairs of asterisks, whichever details are present. *)
Theorem details_text_header (details : PlaceDetails) :
  startswith ("**" ++ d_name details ++ "**")
             (PlacesAgent.format_place_details_response details) = true.
Proof.
  destruct (details_response_shape details) as [rest ->].
  set (name := d_name details).
  assert (Hp : rstrip ("**" ++ name ++ "**") = "**" ++ name ++ "**").
  { rewrite <- append_assoc, rstrip_app. reflexivity. }
  unfold strip.
  replace (lstrip (("**" ++ name ++ "**") ++ rest))
    with (("**" ++ name ++ "**") ++ rest) by reflexivity.
  rewrite rstrip_app, Hp.
  destruct (rstrip rest).
  - rewrite <- (append_empty_r ("**" ++ name ++ "**")) at 2. apply startswith_app.
  - apply startswith_app.
Qed.

(** ** The weather text *)



(** ** Intent, greetings and goodbyes *)

(** X11.  Every query gets something to answer: the intent always has the
    weather, the places or the place-detail flag set. *)
Theorem intent_never_empty (user_input : string) :
  weather (determine_intent user_input)
  || places (determine_intent user_input)
  || place_detail (determine_intent user_input) = true.
Proof.
  unfold determine_intent. cbv zeta.
  destruct (any_in place_detail_keywords _);
    destruct (any_in weather_keywords _);
    destruct (any_in places_keywords _);
    destruct (any_in places_phrases _);
    destruct (any_in trip_words _);
    try destruct (_ <=? 3)%nat; reflexivity.
Qed.

(** X12.  The classifiers do not see case: the intent, the greeting test
    and the goodbye test of a query are those of its lower-cased form. *)
Theorem classifiers_ignore_case (user_input : string) :
  determine_intent (lower user_input) = determine_intent user_input
  /\ is_greeting (lower user_input) = is_greeting user_input
  /\ is_goodbye (lower user_input) = is_goodbye user_input.
Proof.
  unfold determine_intent, is_greeting, is_goodbye.
  now rewrite !lower_idem.
Qed.

(** X13.  Neither the greeting test, nor the goodbye test, nor
    [process_query] sees white space around the query. *)
Theorem surrounding_space_ignored (w : World) (user_input : string) :
  is_greeting (strip user_input) = is_greeting user_input
  /\ is_goodbye (strip user_input) = is_goodbye user_input
  /\ process_query w (strip user_input) = process_query w user_input.
Proof.
  unfold is_greeting, is_goodbye, process_query.
  now rewrite !strip_lower_strip, !strip_idem.
Qed.

Lemma lstrip_blank (s : string) : sall is_space s = true -> lstrip s = "".
Proof.
  induction s as [|c s IH]; simpl; [reflexivity|].
  intros H. apply andb_true_iff in H as [Hc Hs]. now rewrite Hc, IH.
Qed.

(** X14.  An empty or blank query is answered by the request for more
    information, without any provider being consulted. *)
Theorem blank_query (w : World) (user_input : string) :
  sall is_space user_input = true ->
  process_query w user_input = Ok need_more_text.
Proof.
  intros H. unfold process_query, strip. rewrite (lstrip_blank _ H). reflexivity.
Qed.

Lemma blank_query_witness :
  sall is_space "   " = true
  /\ process_query Samples.no_temperature "   " = Ok need_more_text.
Proof.
  split; [reflexivity|].
  apply (blank_query Samples.no_temperature "   "). reflexivity.
Defined.

(** ** What the extractors return *)

Lemma first_some_In {A B} (f : A -> option B) (l : list A) (b : B) :
  first_some f l = Some b -> exists x, In x l /\ f x = Some b.
Proof.
  induction l as [|x l IH]; simpl; [discriminate|].
  destruct (f x) as [b'|] eqn:E.
  - intros [= <-]. exists x. auto.
  - intros H. destruct (IH H) as (y & Hy & Ey). exists y. auto.
Qed.

Lemma long_enough_nonempty (place : string) :
  long_enough place = true -> place <> "".
Proof.
  unfold long_enough. intros H. apply andb_true_iff in H as [H _].
  destruct place; [discriminate H | discriminate].
Qed.

Lemma py_len_nonempty (s : string) : 1 <= py_len s -> s <> "".
Proof. destruct s; simpl; [lia | discriminate]. Qed.

Lemma length_nonempty (s : string) : 1 <= String.length s -> s <> "".
Proof. destruct s; simpl; [lia | discriminate]. Qed.

Lemma title_aux_length (b : bool) (s : string) :
  String.length (title_aux b s) = String.length s.
Proof.
  revert b. induction s as [|c s IH]; intros b; simpl; [reflexivity|].
  destruct (is_alpha c); simpl; now rewrite IH.
Qed.

Lemma title_length (s : string) : String.length (title s) = String.length s.
Proof. apply title_aux_length. Qed.

Lemma title_if_lower_length (s : string) :
  String.length (title_if_lower s) = String.length s.
Proof. unfold title_if_lower. destruct (head_is is_lower s); [apply title_length | reflexivity]. Qed.

Lemma append_length (a b : string) :
  String.length (a ++ b) = String.length a + String.length b.
Proof. induction a as [|c a IH]; simpl; [reflexivity | now rewrite IH]. Qed.

Lemma join_length_ge (sep x : string) (l : list string) :
  String.length x <= String.length (join sep (x :: l)).
Proof.
  destruct l as [|y l]; cbn [join]; [lia|]. rewrite append_length. lia.
Qed.

Lemma head_is_nonempty (p : ascii -> bool) (s : string) :
  head_is p s = true -> 1 <= String.length s.
Proof. destruct s; simpl; [discriminate | lia]. Qed.

(** X15.  When [extract_place_detail_query] finds a name, the name is not
    empty: it has more than two characters when a template matched, and at
    least one capitalised word otherwise. *)
Theorem detail_query_nonempty (user_input place : string) :
  extract_place_detail_query user_input = Some place -> place <> "".
Proof.
  unfold extract_place_detail_query.
  destruct (first_some (detail_one user_input) detail_patterns) as [p|] eqn:E.
  - intros [= <-]. apply first_some_In in E as (r & _ & E).
    unfold detail_one in E. destruct (Re.search true r user_input); [|discriminate].
    match type of E with (if long_enough ?x then _ else _) = _ =>
      destruct (long_enough x) eqn:L; [|discriminate] end.
    injection E as <-. now apply long_enough_nonempty.
  - destruct (_ && _); [|discriminate].
    destruct (filter (head_is is_upper) (split_ws user_input)) as [|x l] eqn:F;
      [discriminate|].
    intros [= <-]. apply length_nonempty.
    assert (Hx : In x (filter (head_is is_upper) (split_ws user_input)))
      by (rewrite F; now left).
    apply filter_In in Hx as [_ Hx]. apply head_is_nonempty in Hx.
    exact (Nat.le_trans _ _ _ Hx (join_length_ge " " x l)).
Qed.

Lemma detail_query_nonempty_witness :
  extract_place_detail_query "Tell me about Qutub Minar" = Some "Qutub Minar"
  /\ "Qutub Minar" <> "".
Proof.
  assert (H : extract_place_detail_query "Tell me about Qutub Minar" = Some "Qutub Minar")
    by reflexivity.
  split; [exact H | exact (detail_query_nonempty _ _ H)].
Defined.

Lemma srev_onto_length (s acc : string) :
  String.length (srev_onto s acc) = String.length s + String.length acc.
Proof.
  revert acc. induction s as [|c s IH]; intros acc; simpl; [reflexivity|].
  rewrite IH. simpl. lia.
Qed.

Lemma split_ws_aux_nonempty (s cur x : string) :
  In x (split_ws_aux s cur) -> 1 <= String.length x.
Proof.
  revert cur. induction s as [|c s IH]; intros cur; simpl.
  - destruct cur as [|d cur]; [intros []|].
    intros [<-|[]]. unfold srev. rewrite srev_onto_length. simpl. lia.
  - destruct (is_space c).
    + destruct cur as [|d cur]; [apply IH|].
      intros [<-|H]; [|eapply IH; eassumption].
      unfold srev. rewrite srev_onto_length. simpl. lia.
    + apply IH.
Qed.

Lemma split_ws_nonempty (s x : string) : In x (split_ws s) -> 1 <= String.length x.
Proof. apply split_ws_aux_nonempty. Qed.

Lemma join_nonempty_of_head (sep x : string) (l : list string) :
  1 <= String.length x -> join sep (x :: l) <> "".
Proof.
  intros H. apply length_nonempty.
  exact (Nat.le_trans _ _ _ H (join_length_ge sep x l)).
Qed.

Ltac unravel H :=
  cbv zeta in H;
  repeat match type of H with
         | Some _ = Some _ => injection H as <-
         | None = Some _ => discriminate H
         | context [match ?x with _ => _ end] => destruct x eqn:?
         end.

Lemma title_nonempty (s : string) : s <> "" -> title s <> "".
Proof.
  intros H E. apply H. destruct s; [reflexivity|].
  apply (f_equal String.length) in E. rewrite title_length in E. discriminate E.
Qed.

Lemma title_if_lower_nonempty (s : string) : s <> "" -> title_if_lower s <> "".
Proof.
  unfold title_if_lower. destruct (head_is is_lower s); [apply title_nonempty | trivial].
Qed.

Ltac nonempty_from_context :=
  solve
    [ apply strip_truthy_nonempty; assumption
    | apply long_enough_nonempty; assumption
    | apply title_nonempty, long_enough_nonempty; assumption
    | apply title_if_lower_nonempty, long_enough_nonempty; assumption
    | rewrite strip_idem; apply long_enough_nonempty; assumption ].

Lemma pattern1_nonempty (s p : string) : pattern1 s = Some p -> p <> "".
Proof. unfold pattern1. intros H. unravel H; nonempty_from_context. Qed.

Lemma pattern2_nonempty (s p : string) : pattern2 s = Some p -> p <> "".
Proof. unfold pattern2. intros H. unravel H; nonempty_from_context. Qed.

Lemma pattern3_nonempty (s p : string) : pattern3 s = Some p -> p <> "".
Proof. unfold pattern3. intros H. unravel H; nonempty_from_context. Qed.

Lemma pattern5_nonempty (s p : string) : pattern5 s = Some p -> p <> "".
Proof. unfold pattern5. intros H. unravel H; nonempty_from_context. Qed.

Lemma pattern6_nonempty (s p : string) : pattern6 s = Some p -> p <> "".
Proof. unfold pattern6. intros H. unravel H; nonempty_from_context. Qed.

Lemma take_until_stop_In (stop_words words : list string) (x : string) :
  In x (take_until_stop stop_words words) -> In x words.
Proof.
  induction words as [|y words IH]; simpl; [tauto|].
  destruct (mem y stop_words); [intros []|].
  intros [->|H]; [now left | right; auto].
Qed.

Lemma pattern4_nonempty (s p : string) : pattern4 s = Some p -> p <> "".
Proof.
  unfold pattern4. intros H. apply first_some_In in H as (phrase & _ & H).
  unfold pattern4_one in H.
  destruct (split_once phrase (lower s)) as [[before after]|]; [|discriminate].
  cbv zeta in H.
  match type of H with
  | context [take_until_stop stop_words4 ?ws] =>
      destruct (take_until_stop stop_words4 ws) as [|x l] eqn:F
  end; [discriminate|].
  assert (Hx : 1 <= String.length x).
  { match type of F with
    | ?t = _ => assert (Hin : In x t) by (rewrite F; now left)
    end.
    apply take_until_stop_In in Hin. now apply split_ws_nonempty in Hin. }
  match type of H with
  | context [filter ?f ?ws] => destruct (filter f ws) as [|y l'] eqn:G
  end; injection H as <-.
  - apply length_nonempty.
    change (1 <= String.length (title (join " " (x :: l)))).
    rewrite title_length.
    exact (Nat.le_trans _ _ _ Hx (join_length_ge " " x l)).
  - apply (join_nonempty_of_head " " y l').
    assert (Hy : In y (y :: l')) by now left.
    rewrite <- G in Hy. apply filter_In in Hy as [Hy _].
    now apply split_ws_nonempty in Hy.
Qed.

Ltac split_andb :=
  repeat match goal with
         | H : _ && _ = true |- _ => apply andb_true_iff in H as [? ?]
         end.

Lemma pattern7_nonempty (s p : string) : pattern7 s = Some p -> p <> "".
Proof.
  unfold pattern7. intros H. unravel H; split_andb; nonempty_from_context.
Qed.

Lemma pattern8_nonempty (s p : string) : pattern8 s = Some p -> p <> "".
Proof.
  unfold pattern8. intros H. unravel H; split_andb; nonempty_from_context.
Qed.

Lemma isalpha_nonempty (s : string) : isalpha s = true -> 1 <= String.length s.
Proof. destruct s; simpl; [discriminate | lia]. Qed.

Lemma capitalized_run_alpha (words acc : list string) :
  Forall (fun x => isalpha x = true) acc ->
  Forall (fun x => isalpha x = true) (capitalized_run words acc).
Proof.
  revert acc. induction words as [|word words IH]; intros acc Hacc;
    cbn [capitalized_run]; [exact Hacc|]. cbv zeta.
  destruct (mem (lower word) stop_words_lower).
  - destruct acc; [apply IH; constructor | exact Hacc].
  - destruct (head_is is_upper word && isalpha word) eqn:E.
    + apply andb_true_iff in E as [_ E]. apply IH.
      apply Forall_app. split; [exact Hacc | repeat constructor; exact E].
    + destruct acc as [|a acc]; [apply IH; constructor|].
      destruct (isalpha word && negb false) eqn:E'; [|exact Hacc].
      apply andb_true_iff in E' as [E' _]. apply IH.
      apply Forall_app. split; [exact Hacc | repeat constructor; exact E'].
Qed.

Lemma pattern9_nonempty (s p : string) : pattern9 s = Some p -> p <> "".
Proof.
  unfold pattern9.
  pose proof (capitalized_run_alpha (split_ws s) [] (Forall_nil _)) as Hall.
  destruct (capitalized_run (split_ws s) []) as [|x l]; [discriminate|].
  intros [= <-]. apply (join_nonempty_of_head " " x l), isalpha_nonempty.
  now inversion Hall.
Qed.

Lemma pattern10_loop_nonempty (words : list string) (p : string) :
  pattern10_loop words = Some p -> p <> "".
Proof.
  induction words as [|word rest IH]; cbn [pattern10_loop]; [discriminate|].
  cbv zeta. destruct (_ && _ && _) eqn:E; [|exact IH].
  apply andb_true_iff in E as [E _]. apply andb_true_iff in E as [E _].
  apply Nat.leb_le in E.
  assert (Hc : clean_tail word <> "")
    by (apply py_len_nonempty; eapply Nat.le_trans; [|exact E]; repeat constructor).
  destruct rest as [|next rest']; [|destruct (mem _ _)];
    intros [= <-]; now apply title_if_lower_nonempty.
Qed.

Lemma pattern10_nonempty (s p : string) : pattern10 s = Some p -> p <> "".
Proof. unfold pattern10. apply pattern10_loop_nonempty. Qed.

Lemma extract_place_name_nonempty (user_input place : string) :
  extract_place_name user_input = Some place -> place <> "".
Proof.
  unfold extract_place_name. intros H.
  apply first_some_In in H as (pattern & Hin & H).
  simpl in Hin.
  repeat (destruct Hin as [<-|Hin];
          [eauto using pattern1_nonempty, pattern2_nonempty, pattern3_nonempty,
             pattern4_nonempty, pattern5_nonempty, pattern6_nonempty,
             pattern7_nonempty, pattern8_nonempty, pattern9_nonempty,
             pattern10_nonempty|]).
  destruct Hin.
Qed.

(** X16.  When [extract_place_name] finds a place name, the name is not
    empty, whichever of the ten strategies produced it. *)
Theorem place_name_nonempty (user_input place : string) :
  extract_place_name user_input = Some place -> place <> "".
Proof. apply extract_place_name_nonempty. Qed.

Lemma place_name_nonempty_witness :
  extract_place_name "What's the weather in Bangalore?" = Some "Bangalore"
  /\ "Bangalore" <> "".
Proof.
  assert (H : extract_place_name "What's the weather in Bangalore?" = Some "Bangalore")
    by reflexivity.
  split; [exact H | exact (place_name_nonempty _ _ H)].
Defined.

(** X17.  The name used in the answers is never empty when the extracted
    place name is not: a geocoded name of fewer than two characters is
    replaced by the extracted name, capitalised. *)
Theorem proper_name_nonempty (place_name : string) (geocoding_info : Location) :
  place_name <> "" -> proper_name place_name geocoding_info <> "".
Proof.
  intros Hp. unfold proper_name. cbv zeta.
  match goal with
  | |- (if ?c then _ else ?x) <> _ => destruct c eqn:E; [|destruct x eqn:Ex]
  end.
  - apply length_nonempty. rewrite title_length.
    destruct place_name; [congruence | simpl; lia].
  - apply orb_false_iff in E as [_ E]. discriminate E.
  - discriminate.
Qed.

Lemma proper_name_nonempty_witness :
  "xy" <> "" /\ proper_name "xy" Samples.london <> "".
Proof.
  assert (H : "xy" <> "") by discriminate.
  split; [exact H | exact (proper_name_nonempty "xy" Samples.london H)].
Defined.

(** ** What a region verdict requires *)

Lemma existsb_false_In {A} (f : A -> bool) (l : list A) (x : A) :
  existsb f l = false -> In x l -> f x = false.
Proof.
  intros H Hin. destruct (f x) eqn:E; [|reflexivity].
  rewrite (existsb_In_true f l x Hin E) in H. discriminate.
Qed.

(** X18.  [check_if_state_or_region] says "region" only for a name outside
    the whitelist, a type and a class that name no kind of settlement, and
    either the country rule (class boundary, type administrative, a display
    name that holds "country" and the name, importance above 0.8) or the
    state rule (class administrative, a type that holds "administrative",
    importance from 0.4 to 0.7, a display name of several parts whose first
    part does not hold the name). *)
Theorem region_verdict_requires (place_name : string) (g : Location) :
  check_if_state_or_region place_name g = true ->
  let place_type := lower (get_str (loc_type g)) in
  let place_class := lower (get_str (loc_class g)) in
  let display_name := lower (get_str (loc_display_name g)) in
  let importance := get_num (loc_importance g) in
  ~ In (strip (lower place_name)) major_cities
  /\ (forall indicator, In indicator city_indicators ->
        contains indicator place_type = false /\ contains indicator place_class = false)
  /\ ((place_class = "boundary" /\ place_type = "administrative"
       /\ contains "country" display_name = true
       /\ contains (lower place_name) display_name = true
       /\ (8 # 10 < importance)%Q)
      \/
      (place_class = "administrative"
       /\ contains "administrative" place_type = true
       /\ (4 # 10 <= importance)%Q /\ (importance <= 7 # 10)%Q
       /\ 1 < List.length (split "," display_name)
       /\ contains (lower place_name)
            (lower (strip (hd "" (split "," display_name)))) = false)).
Proof.
  unfold check_if_state_or_region. cbv zeta.
  destruct (mem _ major_cities) eqn:Hm; [discriminate|].
  destruct (existsb _ [_; _]); [discriminate|].
  destruct (_ && contains (lower place_name) _); [discriminate|].
  destruct (existsb _ city_indicators) eqn:Hi; [discriminate|].
  intros H. split; [|split].
  - intros Hin. apply mem_In in Hin. congruence.
  - intros indicator Hin.
    assert (E := existsb_false_In _ _ indicator Hi Hin).
    now apply orb_false_iff in E.
  - revert H.
    match goal with |- context [if ?c then true else _] => destruct c eqn:Hcountry end.
    + intros _. left. split_andb.
      repeat match goal with
             | H : (_ =? _) = true |- _ => apply String.eqb_eq in H
             | H : Qlt_b _ _ = true |- _ => apply Qlt_b_true in H
             end.
      auto.
    + match goal with |- context [if ?c then _ else false] => destruct c eqn:Hstate end;
        [|discriminate].
      match goal with |- context [if ?c then _ else false] => destruct c eqn:Himp end;
        [|discriminate].
      match goal with |- context [if ?c then _ else false] => destruct c eqn:Hlen end;
        [|discriminate].
      match goal with |- context [if ?c then _ else false] => destruct c eqn:Hfirst end;
        [|discriminate].
      intros _. right. split_andb.
      repeat match goal with
             | H : (_ =? _) = true |- _ => apply String.eqb_eq in H
             | H : Qle_b _ _ = true |- _ => apply Qle_bool_iff in H
             | H : (_ <? _)%nat = true |- _ => apply Nat.ltb_lt in H
             | H : negb _ = true |- _ => apply negb_true_iff in H
             end.
      auto 10.
Qed.

Lemma region_verdict_requires_witness :
  check_if_state_or_region "Bavaria" Samples.upper_region = true
  /\ ~ In (strip (lower "Bavaria")) major_cities.
Proof.
  assert (H : check_if_state_or_region "Bavaria" Samples.upper_region = true)
    by reflexivity.
  split; [exact H|].
  exact (proj1 (region_verdict_requires "Bavaria" Samples.upper_region H)).
Defined.

(** ** When [process_query] returns and when it raises *)

Lemma weather_response_nonempty (weather : option WeatherAgent.weather_data)
    (place_name s : string) :
  WeatherAgent.format_weather_response weather place_name = Ok s -> s <> "".
Proof.
  unfold WeatherAgent.format_weather_response.
  destruct weather as [wd|]; [|intros [= <-]; simpl; discriminate].
  destruct (negb (WeatherAgent.success wd)); [intros [= <-]; simpl; discriminate|].
  destruct (WeatherAgent.temperature wd);
    destruct (WeatherAgent.precipitation_probability wd);
    cbn [bind WeatherAgent.round]; intros [= <-]; simpl; discriminate.
Qed.

Lemma answer_located_cases (w : World) (user_input place_name : string)
    (g : PlacesAgent.geocoding_data) :
  (exists r, answer_located w user_input place_name g = Ok r /\ r <> "")
  \/ (exists e, answer_located w user_input place_name g = Raise e
                /\ weather (determine_intent user_input) = true).
Proof.
  unfold answer_located.
  destruct (PlacesAgent.coordinates g) as [lat lon].
  set (name := proper_name place_name (PlacesAgent.info g)).
  destruct (check_if_state_or_region _ _);
    [left; eexists; split; [reflexivity | simpl; discriminate]|].
  assert (Hresp :
            (exists responses,
                (if weather (determine_intent user_input)
                 then match WeatherAgent.get_weather w lat lon with
                      | Some weather_data =>
                          weather_response <-
                            WeatherAgent.format_weather_response (Some weather_data) name ;;
                          Ok [weather_response]
                      | None => Ok []
                      end
                 else Ok []) = Ok responses
                /\ Forall (fun r => r <> "") responses)
            \/ (exists e,
                   (if weather (determine_intent user_input)
                    then match WeatherAgent.get_weather w lat lon with
                         | Some weather_data =>
                             weather_response <-
                               WeatherAgent.format_weather_response (Some weather_data) name ;;
                             Ok [weather_response]
                         | None => Ok []
                         end
                    else Ok []) = Raise e
                   /\ weather (determine_intent user_input) = true)).
  { destruct (weather _); [|left; exists []; split; [reflexivity | constructor]].
    destruct (WeatherAgent.get_weather w lat lon) as [wd|];
      [|left; exists []; split; [reflexivity | constructor]].
    destruct (WeatherAgent.format_weather_response (Some wd) name) as [s|e] eqn:E.
    - left. exists [s]. split; [reflexivity|].
      repeat constructor. eapply weather_response_nonempty; eassumption.
    - right. exists e. split; reflexivity. }
  destruct Hresp as [(responses & -> & Hne) | (e & -> & He)]; cbn [bind].
  - left. destruct (places _).
    + destruct (PlacesAgent.get_tourist_attractions w lat lon) as [|p ps].
      * destruct (_ || _); eexists; (split; [reflexivity | simpl; discriminate]).
      * eexists; split; [reflexivity|]. apply combine_nonempty.
        apply Forall_app. split; [exact Hne|].
        repeat constructor. apply places_response_nonempty.
    + eexists; split; [reflexivity|]. now apply combine_nonempty.
  - right. exists e. split; [reflexivity | exact He].
Qed.

Lemma process_query_outcome (w : World) (user_input : string) :
  (exists r, process_query w user_input = Ok r /\ r <> "")
  \/ (exists e, process_query w user_input = Raise e
                /\ weather (determine_intent (strip user_input)) = true).
Proof.
  unfold process_query.
  destruct (is_goodbye _); [left; eexists; split; [reflexivity | discriminate]|].
  destruct (is_greeting _).
  { left; eexists; split; [reflexivity|]. unfold greeting_text, time_greeting.
    destruct (_ <? 12)%nat; [|destruct (_ <? 18)%nat]; simpl; discriminate. }
  destruct (_ <? 3)%nat; [left; eexists; split; [reflexivity | discriminate]|].
  destruct (timing _); [left; eexists; split; [reflexivity | discriminate]|].
  destruct (place_detail _).
  { left. destruct (opt_truthy_s _) as [name|];
      [|eexists; split; [reflexivity | discriminate]].
    destruct (place_details w name);
      eexists; (split; [reflexivity|]);
      [apply details_response_nonempty | simpl; discriminate]. }
  destruct (opt_truthy_s _) as [place_name|];
    [|left; eexists; split; [reflexivity | discriminate]].
  destruct (PlacesAgent.get_coordinates_with_details w place_name) as [g|];
    [|left; eexists; split; [reflexivity | simpl; discriminate]].
  apply answer_located_cases.
Qed.

(** X19.  [process_query] either returns a text that is not empty, or
    raises; and it can only raise for a query whose intent asks for the
    weather. *)
Theorem process_query_cases (w : World) (user_input : string) :
  (exists r, process_query w user_input = Ok r /\ r <> "")
  \/ (exists e, process_query w user_input = Raise e
                /\ weather (determine_intent (strip user_input)) = true).
Proof. apply process_query_outcome. Qed.

(** X20.  A query that does not ask for the weather never makes
    [process_query] raise, whatever the providers answer. *)
Theorem no_weather_no_raise (w : World) (user_input : string) :
  weather (determine_intent (strip user_input)) = false ->
  exists r, process_query w user_input = Ok r /\ r <> "".
Proof.
  intros H. destruct (process_query_outcome w user_input) as [Hok | (e & _ & He)];
    [exact Hok | congruence].
Qed.

Lemma no_weather_no_raise_witness :
  weather (determine_intent (strip "places in Paris")) = false
  /\ exists r, process_query Samples.no_temperature "places in Paris" = Ok r /\ r <> "".
Proof.
  split; [reflexivity|].
  apply (no_weather_no_raise Samples.no_temperature "places in Paris"). reflexivity.
Defined.



(** ** Providers that are not asked *)

(** X22.  A query whose intent asks neither for places nor for the details
    of a place is answered without the attraction data of Overpass:
    replacing that provider by anything else changes nothing. *)
Theorem places_provider_unused (w : World)
    (o : Q -> Q -> http (option (list (option string)))) (user_input : string) :
  places (determine_intent (strip user_input)) = false ->
  place_detail (determine_intent (strip user_input)) = false ->
  process_query (with_overpass w o) user_input = process_query w user_input.
Proof.
  intros Hp Hd. unfold process_query. rewrite Hd.
  destruct (is_goodbye _); [reflexivity|].
  destruct (is_greeting _); [reflexivity|].
  destruct (_ <? 3)%nat; [reflexivity|].
  destruct (timing _); [reflexivity|].
  destruct (opt_truthy_s _) as [place_name|]; [|reflexivity].
  change (PlacesAgent.get_coordinates_with_details (with_overpass w o) place_name)
    with (PlacesAgent.get_coordinates_with_details w place_name).
  destruct (PlacesAgent.get_coordinates_with_details w place_name) as [g|]; [|reflexivity].
  unfold answer_located. rewrite Hp.
  destruct (PlacesAgent.coordinates g) as [lat lon]. reflexivity.
Qed.

Lemma places_provider_unused_witness :
  places (determine_intent (strip "weather in Paris")) = false
  /\ place_detail (determine_intent (strip "weather in Paris")) = false
  /\ process_query (with_overpass (Samples.sunny 9 0) (fun _ _ => HttpError))
                   "weather in Paris"
     = process_query (Samples.sunny 9 0) "weather in Paris".
Proof.
  split; [reflexivity|]. split; [reflexivity|].
  apply (places_provider_unused (Samples.sunny 9 0) (fun _ _ => HttpError)
           "weather in Paris"); reflexivity.
Defined.

(** X23.  A query whose intent does not ask for the weather is answered
    without Open-Meteo: replacing Open-Meteo by anything else changes
    nothing. *)
Theorem weather_provider_unused (w : World)
    (m : Q -> Q -> http (option CurrentWeather)) (user_input : string) :
  weather (determine_intent (strip user_input)) = false ->
  process_query (with_open_meteo w m) user_input = process_query w user_input.
Proof.
  intros Hw. unfold process_query.
  destruct (is_goodbye _); [reflexivity|].
  destruct (is_greeting _); [reflexivity|].
  destruct (_ <? 3)%nat; [reflexivity|].
  destruct (timing _); [reflexivity|].
  destruct (place_detail _); [reflexivity|].
  destruct (opt_truthy_s _) as [place_name|]; [|reflexivity].
  change (PlacesAgent.get_coordinates_with_details (with_open_meteo w m) place_name)
    with (PlacesAgent.get_coordinates_with_details w place_name).
  destruct (PlacesAgent.get_coordinates_with_details w place_name) as [g|]; [|reflexivity].
  unfold answer_located. rewrite Hw.
  destruct (PlacesAgent.coordinates g) as [lat lon]. reflexivity.
Qed.

Lemma weather_provider_unused_witness :
  weather (determine_intent (strip "places in Paris")) = false
  /\ process_query (with_open_meteo (Samples.sunny 9 0) (fun _ _ => HttpError))
                   "places in Paris"
     = process_query (Samples.sunny 9 0) "places in Paris".
Proof.
  split; [reflexivity|].
  apply (weather_provider_unused (Samples.sunny 9 0) (fun _ _ => HttpError)
           "places in Paris").
  reflexivity.
Defined.

(** ** A place that cannot be found *)



(** ** Splitting a message into queries *)

Lemma stripped_parts_trimmed (parts : list string) (q : string) :
  In q (stripped_parts parts) -> strip q = q.
Proof.
  unfold stripped_parts. rewrite in_flat_map. intros (p & _ & H).
  destruct (truthy (strip p)); [|destruct H].
  destruct H as [<-|[]]. apply strip_idem.
Qed.

Lemma split_on_separator_trimmed (user_input sep : string) (queries : list string) :
  Forall (fun q => q = user_input \/ strip q = q) queries ->
  Forall (fun q => q = user_input \/ strip q = q) (split_on_separator queries sep).
Proof.
  intros H. apply Forall_forall. intros q Hq.
  unfold split_on_separator in Hq. apply in_flat_map in Hq as (query & Hin & Hq).
  destruct (contains sep (lower query)).
  - right. eapply stripped_parts_trimmed; eassumption.
  - destruct Hq as [<-|[]]. eapply Forall_forall in H; eassumption.
Qed.

(** X25.  Every query [split_multiple_queries] returns is trimmed, unless
    it is the message itself, handed back untouched. *)
Theorem split_queries_trimmed (user_input : string) :
  Forall (fun q => q = user_input \/ strip q = q) (split_multiple_queries user_input).
Proof.
  assert (Hsep : Forall (fun q => q = user_input \/ strip q = q)
                        (fold_left split_on_separator separators [user_input])).
  { apply (fold_left_invariant
             (fun queries => Forall (fun q => q = user_input \/ strip q = q) queries)).
    - constructor; [now left | constructor].
    - intros queries sep _. apply split_on_separator_trimmed. }
  unfold split_multiple_queries. cbv zeta.
  destruct (_ || _); [|exact Hsep].
  destruct (re_split _ _ _) as [|first [|part more]]; try exact Hsep.
  constructor; [right; apply strip_idem|].
  apply Forall_forall. intros q Hq. right.
  eapply stripped_parts_trimmed; eassumption.
Qed.

(** ** The /api/query route *)

(** X26.  The route always answers with a text that is not empty and with
    status 200, 400 or 500; success is reported exactly with status 200;
    status 200 carries the answer of the agent; and status 500 means that
    something raised: either before the agent was called, or the agent
    itself, which only happens for a query that asks for the weather. *)
Theorem api_reply (w : World) (data : App.request) :
  let reply := App.process_query w data in
  App.response reply <> ""
  /\ (App.status reply = 200 \/ App.status reply = 400 \/ App.status reply = 500)
  /\ (App.success reply = true <-> App.status reply = 200)
  /\ (App.status reply = 200 ->
      exists query, data = App.Query query
                    /\ process_query w query = Ok (App.response reply))
  /\ (App.status reply = 500 ->
      (exists msg, data = App.Fails msg)
      \/ exists query e,
          data = App.Query query
          /\ process_query w query = Raise e
          /\ weather (determine_intent (strip query)) = true).
Proof.
  unfold App.process_query.
  destruct data as [msg| |query].
  - cbn. split; [discriminate|].
    split; [auto|]. split; [split; discriminate|].
    split; [discriminate|]. intros _. left. now exists msg.
  - cbn. split; [discriminate|].
    split; [auto|]. split; [split; discriminate|].
    split; discriminate.
  - destruct (negb (truthy (strip query))).
    { cbn. split; [discriminate|].
      split; [auto|]. split; [split; discriminate|].
      split; discriminate. }
    assert (Hstrip : process_query w (strip query) = process_query w query)
      by (unfold process_query; now rewrite !strip_idem).
    destruct (process_query_outcome w (strip query)) as [(r & Hr & Hne) | (e & He & Hw)].
    + rewrite Hr. cbn. split; [exact Hne|].
      split; [auto|]. split; [split; reflexivity|].
      split; [|discriminate].
      intros _. exists query. split; [reflexivity|]. now rewrite <- Hstrip.
    + rewrite He. cbn. split; [discriminate|].
      split; [auto|]. split; [split; discriminate|].
      split; [discriminate|].
      intros _. right. exists query, e. rewrite <- Hstrip, He.
      rewrite strip_idem in Hw. auto.
Qed.
